(** * stampy-chat: the corpus loader and the embedding acquirer of [dataset.py]

    A shallow embedding of [src/dataset.py] (class [Dataset]) together with
    the properties its specification states about it.

    - JSON records read by [jsonlines] are values of [json]; a Python [dict]
      whose keys are strings is an association list that holds each key once.
    - A Python [str] is a [string]: a sequence of characters, here the
      one-byte characters of [ascii].
    - A Python exception is a constructor of [outcome]:
      [MissingDataException] is [Missing], and every other exception
      ([TypeError], [KeyError], [AttributeError], ...) is [Uncaught], since the
      loader has a handler for the first kind only.
    - A Python [float] is the rational number it stands for. Where the code
      computes with floats (the division of line 51, [random.uniform] inside
      [tenacity]), the exact result is rounded to the nearest double by
      [binary64]. *)

From Stdlib Require Import QArith Qminmax Qround Qpower Qabs Lqa.
From stdpp Require Import base gmap strings list fin_maps.

Close Scope Q_scope.
Open Scope string_scope.

(** ** JSON values and the Python operations the loader applies to them *)

#[local] Unset Elimination Schemes.
Inductive json : Type :=
| JNull
| JBool (b : bool)
| JNum (q : Q)
| JStr (s : string)
| JList (l : list json)
| JObj (o : list (string * json)).
#[local] Set Elimination Schemes.

(** A record of the corpus, and the [article] argument of
    [extract_info_from_article]: [Dict[str, Any]]. *)
Abbreviation dict := (list (string * json)).

(** What a Python call produces: a value, a [MissingDataException] carrying
    its message, or any other exception. *)
Inductive outcome (A : Type) : Type :=
| Ok (a : A)
| Missing (reason : string)
| Uncaught.
Arguments Ok {A} a.
Arguments Missing {A} reason.
Arguments Uncaught {A}.

Definition bind {A B : Type} (m : outcome A) (k : A -> outcome B) : outcome B :=
  match m with
  | Ok a => k a
  | Missing r => Missing r
  | Uncaught => Uncaught
  end.

Declare Scope py_scope.
Delimit Scope py_scope with py.
Notation "x <- m ;; k" := (bind m (fun x => k))
  (at level 100, m at next level, right associativity) : py_scope.
Open Scope py_scope.

Fixpoint mapM {A B : Type} (f : A -> outcome B) (l : list A) : outcome (list B) :=
  match l with
  | [] => Ok []
  | x :: xs => y <- f x ;; ys <- mapM f xs ;; Ok (y :: ys)
  end.

(** [k in d] *)
Fixpoint has (k : string) (d : dict) : bool :=
  match d with
  | [] => false
  | (k', _) :: d' => if String.eqb k k' then true else has k d'
  end.

(** [d[k]], which the source only evaluates behind a [k in d] test; the
    value for an absent key is never looked at. *)
Fixpoint item (d : dict) (k : string) : json :=
  match d with
  | [] => JNull
  | (k', v) :: d' => if String.eqb k k' then v else item d' k
  end.
Notation "d .[ k ]" := (item d k) (at level 1, left associativity, format "d .[ k ]").

(** [d[k] = v] for a key that [d] does not hold yet. *)
Definition dict_set (k : string) (v : json) (d : dict) : dict := (k, v) :: d.

(** Python truth value: [None], [False], zero, and the empty string, list and
    dict are false. *)
Definition truthy (v : json) : bool :=
  match v with
  | JNull => false
  | JBool b => b
  | JNum q => negb (Qeq_bool q 0)
  | JStr s => negb (String.eqb s "")
  | JList l => match l with [] => false | _ => true end
  | JObj o => match o with [] => false | _ => true end
  end.

(** [v == s] for a string literal [s]. *)
Definition py_eq_str (v : json) (s : string) : bool :=
  match v with
  | JStr t => String.eqb t s
  | _ => false
  end.

(** [len(v)]: a [TypeError] on [None], booleans and numbers. *)
Definition py_len (v : json) : outcome nat :=
  match v with
  | JStr s => Ok (String.length s)
  | JList l => Ok (length l)
  | JObj o => Ok (length o)
  | _ => Uncaught
  end.

(** [v[:n]]: strings and lists can be sliced, nothing else. *)
Definition py_take (n : nat) (v : json) : outcome json :=
  match v with
  | JStr s => Ok (JStr (String.substring 0 n s))
  | JList l => Ok (JList (take n l))
  | _ => Uncaught
  end.

(** [s[:-n]] on a string. *)
Definition drop_last (n : nat) (s : string) : string :=
  String.substring 0 (String.length s - n) s.

(** [v[-1]]: the last character of a string or the last element of a list;
    an [IndexError] when empty, a [KeyError] on a dict (whose keys are
    strings), a [TypeError] otherwise. *)
Definition py_last (v : json) : outcome json :=
  match v with
  | JStr s =>
      match String.length s with
      | O => Uncaught
      | S n => Ok (JStr (String.substring n 1 s))
      end
  | JList l =>
      match last l with
      | Some x => Ok x
      | None => Uncaught
      end
  | _ => Uncaught
  end.

(** [v[:-1]] *)
Definition py_drop_last (v : json) : outcome json :=
  match v with
  | JStr s => Ok (JStr (drop_last 1 s))
  | JList l => Ok (JList (take (length l - 1) l))
  | _ => Uncaught
  end.

Definition newline : string := String (Ascii.ascii_of_nat 10) "".

(** [val['term']] inside the comprehension over the tags. *)
Definition py_term (val : json) : outcome json :=
  match val with
  | JObj o => if has "term" o then Ok (o.["term"]) else Uncaught
  | _ => Uncaught
  end.

(** [sep.join(vals)]: every element must be a [str]. *)
Fixpoint py_join (sep : string) (vals : list json) : outcome string :=
  match vals with
  | [] => Ok ""
  | [JStr s] => Ok s
  | JStr s :: rest => r <- py_join sep rest ;; Ok (s +:+ sep +:+ r)
  | _ => Uncaught
  end.

(** ** [Dataset.extract_info_from_article] *)

(** [if title[-1] == '\n': title = title[:-1]] *)
Definition strip_newline (title : json) : outcome json :=
  c <- py_last title ;;
  if py_eq_str c newline then py_drop_last title else Ok title.

Definition get_title (article : dict) : outcome json :=
  if has "title" article && has "book_title" article && truthy article.["title"]
  then Ok article.["title"]
  else if has "book_title" article && negb (has "title" article)
          && truthy article.["book_title"]
  then strip_newline article.["book_title"]
  else if has "title" article && truthy article.["title"]
  then strip_newline article.["title"]
  else Ok JNull.

Definition get_author (article : dict) : json :=
  if has "author" article && has "authors" article && truthy article.["author"]
  then article.["author"]
  else if has "authors" article && truthy article.["authors"]
  then article.["authors"]
  else if has "author" article && truthy article.["author"]
  then article.["author"]
  else JNull.

(** [k in article and article[k] and len(article[k]) >= n] *)
Definition long_enough (k : string) (n : nat) (article : dict) : outcome bool :=
  if has k article && truthy article.[k]
  then len <- py_len article.[k] ;; Ok (n <=? len)%nat
  else Ok false.

Definition get_date_published (article : dict) : outcome json :=
  c <- long_enough "date_published" 10 article ;;
  if c then py_take 10 article.["date_published"]
  else
    c' <- long_enough "published" 16 article ;;
    if c' then py_take 16 article.["published"] else Ok JNull.

Definition get_url (article : dict) : json :=
  if has "link" article && truthy article.["link"] then article.["link"]
  else if has "url" article && truthy article.["url"] then article.["url"]
  else if has "doi" article && truthy article.["doi"] then article.["doi"]
  else JNull.

Definition get_tags (article : dict) : outcome json :=
  if has "tags" article && truthy article.["tags"]
  then
    match article.["tags"] with
    | JList vals =>
        terms <- mapM py_term vals ;;
        joined <- py_join ", " terms ;;
        Ok (JStr joined)
    | JStr s => Ok (JStr s)
    | _ => Ok JNull
    end
  else Ok JNull.

Definition get_text (article : dict) : outcome json :=
  if has "text" article && truthy article.["text"] then Ok article.["text"]
  else Missing "Entry has no text.".

(** The tuple [(title, author, date_published, url, tags, text)]. *)
Record article_info : Type := Info {
  info_title : json;
  info_author : json;
  info_date_published : json;
  info_url : json;
  info_tags : json;
  info_text : json
}.

Definition extract_info_from_article (article : dict) : outcome article_info :=
  title <- get_title article ;;
  let author := get_author article in
  date_published <- get_date_published article ;;
  let url := get_url article in
  tags <- get_tags article ;;
  text <- get_text article ;;
  Ok (Info title author date_published url tags text).

(** ** Python floats *)

(** [floor(log2(q))] for a positive [q]. *)
Definition ilog2 (q : Q) : Z :=
  let d := (Z.log2 (Qnum q) - Z.log2 (Zpos (Qden q)))%Z in
  if Qle_bool (2 ^ d) q then d else (d - 1)%Z.

(** The nearest integer, the even one of two that are equally near. *)
Definition round_half_even (q : Q) : Z :=
  let n := Qfloor q in
  match (q - inject_Z n ?= 1 # 2)%Q with
  | Lt => n
  | Gt => (n + 1)%Z
  | Eq => if Z.even n then n else (n + 1)%Z
  end.

(** The double nearest to a positive [q]: a multiple of [2 ^ e] with at
    most 53 binary digits, where [e] is at least -1074. *)
Definition binary64_pos (q : Q) : Q :=
  let e := Z.max (ilog2 q - 52) (-1074) in
  (inject_Z (round_half_even (q / 2 ^ e)) * 2 ^ e)%Q.

(** The double that an IEEE 754 operation returns for the exact result [q]
    (round to nearest, ties to even). The operations below stay far under
    2^1024, where rounding would give an infinity. *)
Definition binary64 (q : Q) : Q :=
  match Qnum q with
  | Z0 => 0%Q
  | Zpos _ => binary64_pos q
  | Zneg _ => (- binary64_pos (- q))%Q
  end.

(** [random.uniform(a, b)], which is [a + (b - a) * self.random()], for the
    number [r] that [random()] returns. *)
Definition uniform (a b r : Q) : Q :=
  binary64 (a + binary64 (binary64 (b - a) * r)).

(** ** The state of a [Dataset] and of the module *)

(** [text.split()]: the maximal runs of characters that are not white space.
    Among the one-byte characters these are the tab, the line feed, the
    vertical tab, the form feed, the carriage return, the four separators 28
    to 31, the space, the next-line character 133 and the no-break
    space 160. *)
Definition is_space (c : Ascii.ascii) : bool :=
  let n := Ascii.nat_of_ascii c in
  ((9 <=? n) && (n <=? 13) || (28 <=? n) && (n <=? 32)
   || (n =? 133) || (n =? 160))%nat.

Fixpoint py_split_from (word s : string) : list string :=
  match s with
  | EmptyString => if String.eqb word "" then [] else [word]
  | String c s' =>
      if is_space c
      then if String.eqb word "" then py_split_from "" s'
           else word :: py_split_from "" s'
      else py_split_from (word +:+ String c "") s'
  end.

Definition py_split (s : string) : list string := py_split_from "" s.

(** Keys of [articles_count]: [None], booleans, numbers and strings can be
    hashed, lists and dicts cannot. Booleans and numbers that are equal as
    numbers are the same key. *)
Definition hashable (v : json) : bool :=
  match v with
  | JList _ | JObj _ => false
  | _ => true
  end.

Definition key_eqb (a b : json) : bool :=
  match a, b with
  | JNull, JNull => true
  | JStr s, JStr t => String.eqb s t
  | JBool x, JBool y => Bool.eqb x y
  | JBool x, JNum q | JNum q, JBool x => Qeq_bool q (if x then 1 else 0)
  | JNum p, JNum q => Qeq_bool p q
  | _, _ => false
  end.

(** A [defaultdict(int)], in insertion order. *)
Abbreviation counter := (list (json * nat)).

(** [d[k]] on the [defaultdict] *)
Fixpoint count_of (k : json) (d : counter) : nat :=
  match d with
  | [] => 0
  | (k', n) :: d' => if key_eqb k k' then n else count_of k d'
  end.

(** [d[k] = n] *)
Fixpoint count_set (k : json) (n : nat) (d : counter) : counter :=
  match d with
  | [] => [(k, n)]
  | (k', n') :: d' =>
      if key_eqb k k' then (k', n) :: d' else (k', n') :: count_set k n d'
  end.

(** [d[k] += 1] *)
Definition count_incr (k : json) (d : counter) : counter :=
  count_set k (count_of k d + 1) d.

(** The attributes of a [Dataset] object. [embeddings] exists only once
    [get_embeddings] or [load_embeddings] has assigned it. *)
Record Dataset : Type := {
  jsonl_data_path : string;
  custom_sources : option (list string);
  rate_limit_per_minute : Z;
  delay_in_seconds : Q;
  fraction_of_articles_to_use : Q;
  min_tokens_per_block : Z;
  max_tokens_per_block : Z;
  metadata : list article_info;
  embedding_strings : list string;
  articles_count : counter;
  total_articles_count : nat;
  total_char_count : nat;
  total_word_count : nat;
  total_sentence_count : nat;
  total_block_count : nat;
  sources_so_far : list string;
  info_types : list (string * list string);
  embeddings : option (list (list Q))
}.

(** The object that [Dataset.__init__] builds. Line 51 divides the float
    [60.0] by the rate limit, an [int] that the division first converts to a
    float. *)
Definition new_dataset (path : string) (sources : option (list string))
    (rate : Z) (min_tokens max_tokens : Z) (fraction : Q) : Dataset := {|
  jsonl_data_path := path;
  custom_sources := sources;
  rate_limit_per_minute := rate;
  delay_in_seconds := binary64 (60 / binary64 (inject_Z rate));
  fraction_of_articles_to_use := fraction;
  min_tokens_per_block := min_tokens;
  max_tokens_per_block := max_tokens;
  metadata := [];
  embedding_strings := [];
  articles_count :=
    match sources with
    | Some l => foldl (fun d source => count_set (JStr source) 0 d) [] l
    | None => []
    end;
  total_articles_count := 0;
  total_char_count := 0;
  total_word_count := 0;
  total_sentence_count := 0;
  total_block_count := 0;
  sources_so_far := [];
  info_types := [];
  embeddings := None
|}.

(** [Dataset.__init__]; the division on line 51 raises [OverflowError] for
    a rate limit that rounds to 2^1024, too large for a float, and
    [ZeroDivisionError] for a rate limit of zero. *)
Definition Dataset_init (path : string) (sources : option (list string))
    (rate : Z) (min_tokens max_tokens : Z) (fraction : Q) : outcome Dataset :=
  if (2 ^ 1024 - 2 ^ 970 <=? Z.abs rate)%Z then Uncaught
  else if (rate =? 0)%Z then Uncaught
  else Ok (new_dataset path sources rate min_tokens max_tokens fraction).

(** The module-level [error_count_dict] as the import leaves it. *)
Definition error_count_dict_init : gmap string nat :=
  <["Entry has wrong citation level." := 0]>
  (<["Entry has no URL." := 0]>
  (<["Entry has no text." := 0]>
  (<["Entry has no title." := 0]>
  (<["Entry has no source." := 0]> ∅)))).

(** What an ingestion pass reads and writes: the object, the module's error
    tally, and how many numbers [random.random()] has handed out. *)
Record world : Type := World {
  self : Dataset;
  error_count_dict : gmap string nat;
  draws : nat
}.

(** [self.articles_count[source] += 1; self.total_articles_count += 1] *)
Definition count_article (source : json) (d : Dataset) : Dataset := {|
  jsonl_data_path := jsonl_data_path d;
  custom_sources := custom_sources d;
  rate_limit_per_minute := rate_limit_per_minute d;
  delay_in_seconds := delay_in_seconds d;
  fraction_of_articles_to_use := fraction_of_articles_to_use d;
  min_tokens_per_block := min_tokens_per_block d;
  max_tokens_per_block := max_tokens_per_block d;
  metadata := metadata d;
  embedding_strings := embedding_strings d;
  articles_count := count_incr source (articles_count d);
  total_articles_count := total_articles_count d + 1;
  total_char_count := total_char_count d;
  total_word_count := total_word_count d;
  total_sentence_count := total_sentence_count d;
  total_block_count := total_block_count d;
  sources_so_far := sources_so_far d;
  info_types := info_types d;
  embeddings := embeddings d
|}.

(** Lines 175 to 183: the metadata tuple and the blocks are appended, then
    the four running totals are updated. *)
Definition add_article (info : article_info) (blocks : list string)
    (chars words sentences : nat) (d : Dataset) : Dataset := {|
  jsonl_data_path := jsonl_data_path d;
  custom_sources := custom_sources d;
  rate_limit_per_minute := rate_limit_per_minute d;
  delay_in_seconds := delay_in_seconds d;
  fraction_of_articles_to_use := fraction_of_articles_to_use d;
  min_tokens_per_block := min_tokens_per_block d;
  max_tokens_per_block := max_tokens_per_block d;
  metadata := metadata d ++ [info];
  embedding_strings := embedding_strings d ++ blocks;
  articles_count := articles_count d;
  total_articles_count := total_articles_count d;
  total_char_count := total_char_count d + chars;
  total_word_count := total_word_count d + words;
  total_sentence_count := total_sentence_count d + sentences;
  total_block_count := total_block_count d + length blocks;
  sources_so_far := sources_so_far d;
  info_types := info_types d;
  embeddings := embeddings d
|}.

(** [self.embeddings = m] *)
Definition set_embeddings (m : list (list Q)) (d : Dataset) : Dataset := {|
  jsonl_data_path := jsonl_data_path d;
  custom_sources := custom_sources d;
  rate_limit_per_minute := rate_limit_per_minute d;
  delay_in_seconds := delay_in_seconds d;
  fraction_of_articles_to_use := fraction_of_articles_to_use d;
  min_tokens_per_block := min_tokens_per_block d;
  max_tokens_per_block := max_tokens_per_block d;
  metadata := metadata d;
  embedding_strings := embedding_strings d;
  articles_count := articles_count d;
  total_articles_count := total_articles_count d;
  total_char_count := total_char_count d;
  total_word_count := total_word_count d;
  total_sentence_count := total_sentence_count d;
  total_block_count := total_block_count d;
  sources_so_far := sources_so_far d;
  info_types := info_types d;
  embeddings := Some m
|}.

(** ** [Dataset.get_alignment_texts] *)

(** Lines 137 to 150: the fallback rules for a record without a source.
    [None] is the [continue] that skips printouts. *)
Definition resolve_source (entry : dict) : outcome (option dict) :=
  if negb (has "source" entry) then
    if has "url" entry && py_eq_str entry.["url"] "https://www.cold-takes.com/"
    then Ok (Some (dict_set "source" (JStr "Cold Takes") entry))
    else if has "question" entry && has "answer" entry
    then Ok None
    else if has "article_url" entry
            && py_eq_str entry.["article_url"] "https://www.gwern.net"
    then Ok (Some (dict_set "source" (JStr "gwern.net") entry))
    else if has "url" entry
            && py_eq_str entry.["url"] "https://generative.ink/posts/"
    then Ok (Some (dict_set "source" (JStr "generative.ink") entry))
    else if has "url" entry
    then
      prefix <- py_take 24 entry.["url"] ;;
      if py_eq_str prefix "https://greaterwrong.com"
      then Ok (Some (dict_set "source" (JStr "greaterwrong.com") entry))
      else Missing "Entry has no source."
    else Missing "Entry has no source."
  else Ok (Some entry).

(** How the body of the [try] ends for one record: it reaches its end or a
    [continue], it raises [MissingDataException], or it raises something the
    [except] clause does not catch. *)
Inductive flow : Type :=
| Continue (w : world)
| Raise (reason : string) (w : world)
| Crash.

(** The [except MissingDataException] clause. *)
Definition tally (reason : string) (counts : gmap string nat) : gmap string nat :=
  let counts :=
    match counts !! reason with
    | None => <[reason := 0]> counts
    | Some _ => counts
    end in
  <[reason := default 0 (counts !! reason) + 1]> counts.

Definition handler (reason : string) (w : world) : world :=
  World (self w) (tally reason (error_count_dict w)) (draws w).

Section Loader.

(** [text_splitter.py] is not part of the sources at hand: the block
    splitter and the sentence splitter are parameters. *)
Variable TokenSplitter_split : Z -> Z -> string -> string -> list string.
Variable split_into_sentences : string -> list string.

(** What an f-string prints for a value that is not a [str]. *)
Variable py_repr : json -> string.

(** The numbers that successive calls of [random.random()] return. *)
Variable random : nat -> Q.

Definition py_format (v : json) : string :=
  match v with
  | JStr s => s
  | _ => py_repr v
  end.

(** Lines 166 to 172. *)
Definition make_signature (info : article_info) : string :=
  let signature := "" in
  let signature :=
    if truthy (info_title info)
    then signature +:+ "Title: " +:+ py_format (info_title info) +:+ ", "
    else signature in
  let signature :=
    if truthy (info_author info)
    then signature +:+ "Author: " +:+ py_format (info_author info) +:+ ", "
    else signature in
  let signature :=
    if truthy (info_date_published info)
    then signature +:+ "Date published: "
           +:+ py_format (info_date_published info) +:+ ", "
    else signature in
  let signature :=
    if truthy (info_url info)
    then signature +:+ "URL: " +:+ py_format (info_url info) +:+ ", "
    else signature in
  if negb (String.eqb signature "") then drop_last 2 signature else signature.

(** The body of the [try] statement for one record. A text that is not a
    [str] cannot get past [len(text)] and [text.split()]. *)
Definition process_entry (w : world) (entry : dict) : flow :=
  match resolve_source entry with
  | Uncaught => Crash
  | Missing reason => Raise reason w
  | Ok None => Continue w
  | Ok (Some entry) =>
      let random_number := random (draws w) in
      let w := World (self w) (error_count_dict w) (draws w + 1) in
      if negb (Qle_bool random_number (fraction_of_articles_to_use (self w)))
      then Continue w
      else if match custom_sources (self w) with
              | Some sources =>
                  negb (existsb (py_eq_str entry.["source"]) sources)
              | None => false
              end
      then Continue w
      else if negb (hashable entry.["source"]) then Crash
      else
        let w := World (count_article entry.["source"] (self w))
                       (error_count_dict w) (draws w) in
        match extract_info_from_article entry with
        | Uncaught => Crash
        | Missing reason => Raise reason w
        | Ok info =>
            let signature := make_signature info in
            match info_text info with
            | JStr text =>
                let blocks :=
                  TokenSplitter_split (min_tokens_per_block (self w))
                    (max_tokens_per_block (self w)) text signature in
                Continue
                  (World
                     (add_article info blocks (String.length text)
                        (length (py_split text))
                        (length (split_into_sentences text)) (self w))
                     (error_count_dict w) (draws w))
            | _ => Crash
            end
        end
  end.

(** The [for] loop over the records of the file. [None]: an exception left
    the method. *)
Fixpoint get_alignment_texts (w : world) (reader : list dict) : option world :=
  match reader with
  | [] => Some w
  | entry :: rest =>
      match process_entry w entry with
      | Continue w' => get_alignment_texts w' rest
      | Raise reason w' => get_alignment_texts (handler reason w') rest
      | Crash => None
      end
  end.

End Loader.

(** ** [tenacity]'s retry policy, as [get_embedding_at_index] is decorated *)

(** [wait_exponential.__call__] *)
Definition wait_exponential (multiplier min max : Q) (attempt_number : nat) : Q :=
  let result := (multiplier * 2 ^ Z.of_nat (attempt_number - 1))%Q in
  Qmax (Qmax 0 min) (Qmin result max).

(** The sources do not say which release of [tenacity] is installed, and
    the releases differ in [wait_random_exponential]. *)
Inductive tenacity_release : Type :=
| Before_9_0
| From_9_0.

(** [wait_random_exponential.__call__]: [random.uniform(0, high)] before
    release 9.0 and [random.uniform(self.min, high)] from 9.0 on, where
    [high] is the exponential bound and [r] the number that
    [random.random()] returns. *)
Definition wait_random_exponential (release : tenacity_release) (min max : Q)
    (attempt_number : nat) (r : Q) : Q :=
  let high := wait_exponential 1 min max attempt_number in
  match release with
  | Before_9_0 => uniform 0 high r
  | From_9_0 => uniform min high r
  end.

(** [stop_after_attempt.__call__] *)
Definition stop_after_attempt (max_attempt_number attempt_number : nat) : bool :=
  (max_attempt_number <=? attempt_number)%nat.

(** What a worker does, in order. *)
Inductive event : Type :=
| Sleep (seconds : Q)
| Request (text : string)
| Backoff (seconds : Q).

(** How a submitted call ends. [Unfinished] is the fuel of [retrying] running
    out, which [retrying_finishes] excludes. *)
Inductive call_result : Type :=
| Returned (i : nat) (embedding : list Q)
| RetryError
| Unfinished.

(** How the loop over the futures ends. *)
Inductive status : Type :=
| Completed
| Raised.

Section Embeddings.

(** [settings.py] is not part of the sources at hand. *)
Variable LEN_EMBEDDINGS : nat.

(** The release of [tenacity] that is installed. *)
Variable release : tenacity_release.

(** [openai.Embedding.create], seen from the task with index [i]: what the
    service answers to its [attempt]-th request, sent with [input=text];
    [None] when the call raises. *)
Variable create : nat -> string -> nat -> option (list Q).

(** The number [random.random()] hands to the backoff of task [i] after its
    [attempt]-th request has failed. *)
Variable jitter : nat -> nat -> Q.

(** The retrying loop around the body of [get_embedding_at_index]
    (lines 192 to 199), from attempt [attempt_number] on. *)
Fixpoint retrying (fuel attempt_number : nat) (text : string) (i : nat)
    (delay_in_seconds : Q) : call_result * list event :=
  match fuel with
  | O => (Unfinished, [])
  | S fuel' =>
      let body := [Sleep delay_in_seconds; Request text] in
      match create i text attempt_number with
      | Some embedding => (Returned i embedding, body)
      | None =>
          if stop_after_attempt 5 attempt_number then (RetryError, body)
          else
            let seconds :=
              wait_random_exponential release 1 20 attempt_number
                (jitter i attempt_number) in
            let '(r, trace) :=
              retrying fuel' (S attempt_number) text i delay_in_seconds in
            (r, (body ++ Backoff seconds :: trace)%list)
      end
  end.

Definition get_embedding_at_index (text : string) (i : nat)
    (delay_in_seconds : Q) : call_result * list event :=
  retrying 5 1 text i delay_in_seconds.

(** [np.zeros((rows, cols))] *)
Definition zeros (rows cols : nat) : list (list Q) :=
  replicate rows (replicate cols 0%Q).

(** [self.embeddings[i] = embedding]: numpy stores a sequence of the row's
    length, broadcasts a sequence of length one, and raises otherwise. *)
Definition assign_row (m : list (list Q)) (i : nat) (embedding : list Q)
    : option (list (list Q)) :=
  if (length m <=? i)%nat then None
  else if (length embedding =? LEN_EMBEDDINGS)%nat
  then Some (<[i := embedding]> m)
  else
    match embedding with
    | [x] => Some (<[i := replicate LEN_EMBEDDINGS x]> m)
    | _ => None
    end.

(** Line 205: a future per block; the call passes [text] and [i] only, so
    [delay_in_seconds] takes its default [0]. *)
Definition submit_all (strings : list string) : list (call_result * list event) :=
  imap (fun i text => get_embedding_at_index text i 0) strings.

(** Lines 207 to 209: [as_completed] hands the futures over in the order
    [completed] in which they finish; [future.result()] re-raises what the
    call raised. *)
Fixpoint collect (futures : list call_result) (m : list (list Q))
    (completed : list nat) : status * list (list Q) :=
  match completed with
  | [] => (Completed, m)
  | j :: rest =>
      match futures !! j with
      | Some (Returned i embedding) =>
          match assign_row m i embedding with
          | Some m' => collect futures m' rest
          | None => (Raised, m)
          end
      | Some _ => (Raised, m)
      | None => collect futures m rest
      end
  end.

(** [Dataset.get_embeddings], for the completion order [completed] of the
    futures. The matrix is an attribute from line 202 on, so it outlives an
    exception. *)
Definition get_embeddings (d : Dataset) (completed : list nat) : status * Dataset :=
  let futures := submit_all (embedding_strings d) in
  let m := zeros (length (embedding_strings d)) LEN_EMBEDDINGS in
  let '(s, m') := collect (fst <$> futures) m completed in
  (s, set_embeddings m' d).

(** The events of every worker. *)
Definition worker_traces (d : Dataset) : list (list event) :=
  snd <$> submit_all (embedding_strings d).

End Embeddings.

(** ** [Dataset.save_embeddings] and [Dataset.load_embeddings] *)

(** [s.endswith(suffix)] *)
Definition endswith (s suffix : string) : bool :=
  (String.length suffix <=? String.length s)%nat
  && String.eqb
       (String.substring (String.length s - String.length suffix)
          (String.length suffix) s)
       suffix.

(** The [.npy] files on disk, by name; a file holds the array written to
    it. *)
Abbreviation files := (gmap string (list (list Q))).

(** [np.save(file, arr)] opens [file + '.npy'] unless [file] ends in
    [.npy]. *)
Definition np_save (file : string) (arr : list (list Q)) (fs : files) : files :=
  let file := if endswith file ".npy" then file else file +:+ ".npy" in
  <[file := arr]> fs.

(** [np.load(file)] opens [file] as it is named. *)
Definition np_load (file : string) (fs : files) : outcome (list (list Q)) :=
  match fs !! file with
  | Some arr => Ok arr
  | None => Uncaught
  end.

(** An [AttributeError] when the object has no [embeddings] yet. *)
Definition save_embeddings (d : Dataset) (path : string) (fs : files) : outcome files :=
  match embeddings d with
  | Some m => Ok (np_save path m fs)
  | None => Uncaught
  end.

Definition load_embeddings (d : Dataset) (path : string) (fs : files) : outcome Dataset :=
  m <- np_load path fs ;; Ok (set_embeddings m d).

(** ** The vocabulary of the properties *)

(** Records whose fields have the types the loader relies on. Every field
    may be absent, and every field but [url] may be [null]; strings may be
    empty. *)
Definition is_str (v : json) : bool :=
  match v with
  | JStr _ => true
  | _ => false
  end.

Definition str_or_null (v : json) : bool :=
  match v with
  | JStr _ | JNull => true
  | _ => false
  end.

Definition tag_ok (val : json) : bool :=
  match val with
  | JObj o => has "term" o && is_str o.["term"]
  | _ => false
  end.

Definition tags_ok (v : json) : bool :=
  match v with
  | JList vals => forallb tag_ok vals
  | _ => true
  end.

Definition field_ok (ok : json -> bool) (k : string) (a : dict) : bool :=
  negb (has k a) || ok a.[k].

Definition well_typed (entry : dict) : bool :=
  field_ok is_str "url" entry
  && field_ok str_or_null "source" entry
  && field_ok str_or_null "title" entry
  && field_ok str_or_null "book_title" entry
  && field_ok str_or_null "date_published" entry
  && field_ok str_or_null "published" entry
  && field_ok tags_ok "tags" entry
  && field_ok str_or_null "text" entry.

(** The rule of the specification: the names of an attribute are tried in
    order and the first field that is present wins. [present] says when a
    field of the record counts as present. *)
Fixpoint first_field (present : json -> bool) (names : list string)
    (article : dict) : option (string * json) :=
  match names with
  | [] => None
  | k :: rest =>
      if has k article && present article.[k] then Some (k, article.[k])
      else first_field present rest article
  end.

Definition first_present (present : json -> bool) (names : list string)
    (article : dict) : json :=
  match first_field present names article with
  | Some (_, v) => v
  | None => JNull
  end.

(** The first present field determines what [get] returns: two records with
    the same first present field get the same result. *)
Definition first_present_wins {A : Type} (present : json -> bool)
    (names : list string) (get : dict -> A) : Prop :=
  forall a b : dict,
    first_field present names a = first_field present names b -> get a = get b.

(** The date rule in the order of the code: the first field that is
    non-empty and long enough, cut to its length. *)
Fixpoint first_long_enough (candidates : list (string * nat)) (article : dict)
    : outcome json :=
  match candidates with
  | [] => Ok JNull
  | (k, n) :: rest =>
      c <- long_enough k n article ;;
      if c then py_take n article.[k] else first_long_enough rest article
  end.

Definition is_request (e : event) : bool :=
  match e with
  | Request _ => true
  | _ => false
  end.

Definition is_backoff (e : event) : bool :=
  match e with
  | Backoff _ => true
  | _ => false
  end.

(** How many requests a worker sent, and how often it backed off. *)
Definition requests (trace : list event) : nat :=
  length (List.filter is_request trace).

Definition backoffs (trace : list event) : nat :=
  length (List.filter is_backoff trace).

Definition backoff_ok (e : event) : Prop :=
  match e with
  | Backoff seconds => (1 <= seconds <= 20)%Q
  | _ => True
  end.

(** The seconds for which a worker backs off, in order. *)
Definition waits (trace : list event) : list Q :=
  flat_map (fun e => match e with
                     | Backoff seconds => [seconds]
                     | _ => []
                     end) trace.

(** The lower end of the interval that a backoff is drawn from: 0 before
    release 9.0 of [tenacity], the [min=1] of the decorator from 9.0 on. *)
Definition lowest_wait (release : tenacity_release) : Q :=
  match release with
  | Before_9_0 => 0%Q
  | From_9_0 => 1%Q
  end.

(** The [k]-th request of task [i], counting from [from], is the first that
    the service answers. *)
Definition first_answer (create : nat -> string -> nat -> option (list Q))
    (text : string) (i : nat) (from k : nat) (v : list Q) : Prop :=
  (from <= k)%nat
  /\ create i text k = Some v
  /\ forall j, (from <= j < k)%nat -> create i text j = None.

Definition sleeps_for (seconds : Q) (e : event) : Prop :=
  match e with
  | Sleep s => s = seconds
  | _ => True
  end.

(** ** Sample inputs *)

(** Stand-ins for the absent splitter, sentence splitter, value printer and
    random generator, for running the loader on concrete corpora. *)
Definition sample_split (min_tokens max_tokens : Z) (text signature : string)
    : list string :=
  [signature +:+ ": " +:+ text].

Definition sample_sentences (text : string) : list string := [text].

Definition sample_repr (v : json) : string := "?".

Definition sample_random (n : nat) : Q := (1 # 2)%Q.

(** [Dataset(path, custom_sources, rate, min, max, fraction)] followed by
    [get_alignment_texts()] in a freshly imported module. *)
Definition ingest (split : Z -> Z -> string -> string -> list string)
    (sentences : string -> list string) (repr : json -> string)
    (random : nat -> Q) (init : outcome Dataset) (reader : list dict)
    : option world :=
  match init with
  | Ok d =>
      get_alignment_texts split sentences repr random
        (World d error_count_dict_init 0) reader
  | _ => None
  end.

Definition sample_dataset : outcome Dataset :=
  Dataset_init "data.jsonl" None 3500 400 600 1%Q.

(** The same object in the freshly imported module. *)
Definition sample_world : world :=
  World (new_dataset "data.jsonl" None 3500 400 600 1%Q) error_count_dict_init 0.

Definition valid_record : dict :=
  [("source", JStr "blog"); ("title", JStr "B");
   ("text", JStr "Hello world. Bye.")].

Definition record_without_text : dict :=
  [("source", JStr "blog"); ("title", JStr "A")].

Definition record_with_numeric_title : dict :=
  [("source", JStr "blog"); ("title", JNum 5); ("text", JStr "Some text.")].

Definition record_with_null_url : dict :=
  [("url", JNull); ("text", JStr "Some text.")].

Definition cold_takes_printout : dict :=
  [("url", JStr "https://www.cold-takes.com/"); ("question", JStr "Why?");
   ("answer", JStr "Because."); ("text", JStr "Some text.")].

Definition printout : dict :=
  [("question", JStr "Why?"); ("answer", JStr "Because.")].

Definition dated (date_published published : string) : dict :=
  [("date_published", JStr date_published); ("published", JStr published)].

(** A service that fails four requests of a task and answers the fifth, one
    that never answers, and one that answers at once; a fixed jitter. *)
Definition flaky_create (i : nat) (text : string) (attempt : nat)
    : option (list Q) :=
  if (attempt <? 5)%nat then None else Some [inject_Z (Z.of_nat i); 1%Q].

Definition dead_create (i : nat) (text : string) (attempt : nat)
    : option (list Q) := None.

Definition prompt_create (i : nat) (text : string) (attempt : nat)
    : option (list Q) := Some [inject_Z (Z.of_nat i); 1%Q].

Definition sample_jitter (i attempt : nat) : Q := (1 # 2)%Q.

(** The state after a pass over one valid record: one metadata tuple and
    one block. *)
Definition loaded_world : world :=
  default sample_world
    (get_alignment_texts sample_split sample_sentences sample_repr
       sample_random sample_world [valid_record]).

Definition loaded_dataset : Dataset := self loaded_world.

(** A dataset with two blocks. *)
Definition second_record : dict :=
  [("source", JStr "blog"); ("text", JStr "More.")].

Definition two_block_dataset : Dataset :=
  self
    (default sample_world
       (get_alignment_texts sample_split sample_sentences sample_repr
          sample_random sample_world [valid_record; second_record])).

Definition stored_dataset : Dataset :=
  set_embeddings [[0%Q; 1%Q]; [1%Q; 1%Q]] two_block_dataset.

(** ** The vocabulary of the further properties *)

(** The state after [random.random()] has been called once more. *)
Definition drawn (w : world) : world :=
  World (self w) (error_count_dict w) (draws w + 1).

(** The state after lines 152 to 160 for a record of [source]. *)
Definition counted (source : json) (w : world) : world :=
  World (count_article source (self w)) (error_count_dict w) (draws w + 1).

(** The blocks of line 176 for a stored tuple. *)
Definition blocks_of (split : Z -> Z -> string -> string -> list string)
    (repr : json -> string) (d : Dataset) (info : article_info) : list string :=
  match info_text info with
  | JStr text =>
      split (min_tokens_per_block d) (max_tokens_per_block d) text
        (make_signature repr info)
  | _ => []
  end.

(** Whether line 157 lets a record of [source] through. *)
Definition source_allowed (d : Dataset) (source : json) : Prop :=
  match custom_sources d with
  | Some sources => existsb (py_eq_str source) sources = true
  | None => True
  end.

(** The ways in which the body of the [try] statement can end, as changes
    of the state [w]. *)
Inductive entry_effect (split : Z -> Z -> string -> string -> list string)
    (sentences : string -> list string) (repr : json -> string) (w : world)
    : flow -> Prop :=
| effect_crash :
    entry_effect split sentences repr w Crash
| effect_printout :
    entry_effect split sentences repr w (Continue w)
| effect_no_source :
    entry_effect split sentences repr w (Raise "Entry has no source." w)
| effect_passed_over :
    entry_effect split sentences repr w (Continue (drawn w))
| effect_no_text source :
    hashable source = true ->
    source_allowed (self w) source ->
    entry_effect split sentences repr w
      (Raise "Entry has no text." (counted source w))
| effect_added source info text :
    hashable source = true ->
    source_allowed (self w) source ->
    info_text info = JStr text ->
    text <> "" ->
    entry_effect split sentences repr w
      (Continue
         (World
            (add_article info (blocks_of split repr (self w) info)
               (String.length text) (length (py_split text))
               (length (sentences text))
               (count_article source (self w)))
            (error_count_dict w) (draws w + 1))).

(** The state in which the loop goes on after a record. *)
Definition after (f : flow) : option world :=
  match f with
  | Continue w => Some w
  | Raise reason w => Some (handler reason w)
  | Crash => None
  end.

(** The tally of a reason, zero for a reason that is not a key. *)
Definition tally_of (reason : string) (w : world) : nat :=
  default 0 (error_count_dict w !! reason).

(** The sum of the per-source counts. *)
Definition sum_counts (d : counter) : nat :=
  foldr (fun kn acc => kn.2 + acc) 0 d.

(** The characters, words and sentences of the stored texts. *)
Definition text_of (info : article_info) : string :=
  match info_text info with
  | JStr text => text
  | _ => ""
  end.

Definition chars_of (infos : list article_info) : nat :=
  foldr (fun info acc => String.length (text_of info) + acc) 0 infos.

Definition words_of (infos : list article_info) : nat :=
  foldr (fun info acc => length (py_split (text_of info)) + acc) 0 infos.

Definition sentences_of (sentences : string -> list string)
    (infos : list article_info) : nat :=
  foldr (fun info acc => length (sentences (text_of info)) + acc) 0 infos.

(** The tuples that a pass stores for the records of [reader], when
    [random.random()] has been called [draws] times before it: a record is
    stored when lines 137 to 148 leave it with a source, its random number
    does not exceed [fraction], its source is one of [sources] when these
    are given, and its tuple can be extracted. Every record that gets as
    far as line 152 uses up one random number. *)
Fixpoint stored (random : nat -> Q) (fraction : Q)
    (sources : option (list string)) (draws : nat) (reader : list dict)
    : list article_info :=
  match reader with
  | [] => []
  | entry :: rest =>
      match resolve_source entry with
      | Ok (Some entry) =>
          let sampled := Qle_bool (random draws) fraction in
          let wanted :=
            match sources with
            | Some sources => existsb (py_eq_str entry.["source"]) sources
            | None => true
            end in
          match extract_info_from_article entry with
          | Ok info =>
              if sampled && wanted
              then info :: stored random fraction sources (S draws) rest
              else stored random fraction sources (S draws) rest
          | _ => stored random fraction sources (S draws) rest
          end
      | _ => stored random fraction sources draws rest
      end
  end.

(** The tuples that the pass from the state [w] stores. *)
Definition stored_by (random : nat -> Q) (w : world) (reader : list dict)
    : list article_info :=
  stored random (fraction_of_articles_to_use (self w))
    (custom_sources (self w)) (draws w) reader.

(** The sources that lines 137 to 148 give to records without one. *)
Definition fallback_sources : list string :=
  ["Cold Takes"; "gwern.net"; "generative.ink"; "greaterwrong.com"].

(** What a pass that leads from [w] to [w'] has added for the tuples [new]:
    the tuples and their blocks at the end of the two lists, and the
    characters, words, sentences and blocks in the running totals. *)
Definition appended (split : Z -> Z -> string -> string -> list string)
    (sentences : string -> list string) (repr : json -> string)
    (w w' : world) (new : list article_info) : Prop :=
  metadata (self w') = (metadata (self w) ++ new)%list
  /\ embedding_strings (self w')
     = (embedding_strings (self w)
        ++ flat_map (blocks_of split repr (self w)) new)%list
  /\ Forall (fun info => exists text, info_text info = JStr text /\ text <> "")
       new
  /\ total_char_count (self w') = total_char_count (self w) + chars_of new
  /\ total_word_count (self w') = total_word_count (self w) + words_of new
  /\ total_sentence_count (self w')
     = total_sentence_count (self w) + sentences_of sentences new
  /\ total_block_count (self w')
     = total_block_count (self w)
       + length (flat_map (blocks_of split repr (self w)) new)
  /\ min_tokens_per_block (self w') = min_tokens_per_block (self w)
  /\ max_tokens_per_block (self w') = max_tokens_per_block (self w).

(** A corpus for a second pass over the object of [loaded_world], and the
    state that this pass leads to. *)
Definition second_reader : list dict :=
  [record_without_text; printout; second_record;
   [("title", JStr "No source.")]; valid_record].

Definition grown_world : world :=
  default loaded_world
    (get_alignment_texts sample_split sample_sentences sample_repr
       sample_random loaded_world second_reader).

(** The "Key: value" pairs of a signature, in order: one for each of the
    title, the author, the date and the url that is not empty. *)
Definition signature_parts (repr : json -> string) (info : article_info)
    : list string :=
  ((if truthy (info_title info)
    then ["Title: " +:+ py_format repr (info_title info)] else [])
   ++ (if truthy (info_author info)
       then ["Author: " +:+ py_format repr (info_author info)] else [])
   ++ (if truthy (info_date_published info)
       then ["Date published: " +:+ py_format repr (info_date_published info)]
       else [])
   ++ (if truthy (info_url info)
       then ["URL: " +:+ py_format repr (info_url info)] else []))%list.

(** The sources that the script at the end of the file passes to
    [Dataset] (lines 231 to 261). *)
Definition main_custom_sources : list string :=
  ["https://aipulse.org"; "ebook"; "manual";
   "https://deepmindsafetyresearch.medium.com"; "waitbutwhy.com"; "GitHub";
   "carado.moe"; "https://vkrakovna.wordpress.com";
   "https://jsteinhardt.wordpress.com"; "audio-transcripts";
   "https://aisafety.camp"; "curriculum"; "https://www.yudkowsky.net"].

(** The object of lines 263 to 269, in a freshly imported module. *)
Definition main_world (path : string) : world :=
  World (new_dataset path (Some main_custom_sources) 3500 500 600 1%Q)
    error_count_dict_init 0.

(** The time that a worker spends backing off. *)
Definition backoff_seconds (trace : list event) : Q :=
  foldr (fun e acc => match e with
                      | Backoff seconds => (seconds + acc)%Q
                      | _ => acc
                      end) 0%Q trace.

Definition requests_text (text : string) (e : event) : Prop :=
  match e with
  | Request t => t = text
  | _ => True
  end.

(** ** C1: a record without text is counted as an article *)

(** C1. The specification's scenario, a corpus of one record without a
    [text] field and one valid record, tallies one rejection under
    "Entry has no text." but leaves [total_articles_count] at 2, not 1:
    line 160 counts the record before line 163 rejects it. Only one metadata
    tuple is stored. *)
Theorem C1_rejected_record_is_counted :
  forall split sentences repr,
  exists w,
    ingest split sentences repr sample_random sample_dataset
      [record_without_text; valid_record] = Some w
    /\ error_count_dict w !! "Entry has no text." = Some 1
    /\ total_articles_count (self w) = 2
    /\ count_of (JStr "blog") (articles_count (self w)) = 2
    /\ length (metadata (self w)) = 1.
Proof.
  intros split sentences repr. eexists. split.
  - vm_compute. reflexivity.
  - vm_compute. repeat split; reflexivity.
Qed.

(** ** C10 and C9: what a rejected or skipped record leaves behind *)

Section LoaderFacts.

Variable split : Z -> Z -> string -> string -> list string.
Variable sentences : string -> list string.
Variable repr : json -> string.
Variable random : nat -> Q.

Lemma handler_self reason w : self (handler reason w) = self w.
Proof. reflexivity. Qed.

(** Both [raise MissingDataException] statements come before line 175. *)
Lemma raise_keeps_lists w entry reason w' :
  process_entry split sentences repr random w entry = Raise reason w' ->
  metadata (self w') = metadata (self w)
  /\ embedding_strings (self w') = embedding_strings (self w).
Proof.
  unfold process_entry. intros H.
  repeat case_match; simplify_eq; cbn; auto.
Qed.

(** The tally of a reason grows by one, from zero when the key is new. *)
Lemma tally_lookup reason counts :
  tally reason counts !! reason = Some (default 0 (counts !! reason) + 1).
Proof.
  unfold tally. destruct (counts !! reason) as [n|] eqn:E.
  - rewrite lookup_insert_eq, E. reflexivity.
  - rewrite !lookup_insert_eq. reflexivity.
Qed.

Lemma tally_lookup_ne reason other counts :
  reason <> other -> tally reason counts !! other = counts !! other.
Proof.
  intros Hne. unfold tally. destruct (counts !! reason) eqn:E.
  - by rewrite lookup_insert_ne.
  - by rewrite !lookup_insert_ne.
Qed.

(** The loop goes on after a rejection. *)
Lemma pass_after_raise w entry rest reason w' :
  process_entry split sentences repr random w entry = Raise reason w' ->
  get_alignment_texts split sentences repr random w (entry :: rest)
  = get_alignment_texts split sentences repr random (handler reason w') rest.
Proof. intros H. cbn. rewrite H. reflexivity. Qed.

End LoaderFacts.

(** C10. Whenever a record is rejected with a [MissingDataException], for
    whatever reason, the metadata list and the list of block texts are, once
    the [except] clause has run, exactly what they were before the record. *)
Theorem C10_rejected_record_adds_nothing :
  forall split sentences repr random w entry reason w',
    process_entry split sentences repr random w entry = Raise reason w' ->
    metadata (self (handler reason w')) = metadata (self w)
    /\ embedding_strings (self (handler reason w')) = embedding_strings (self w).
Proof.
  intros split sentences repr random w entry reason w' H.
  rewrite handler_self. eapply raise_keeps_lists. exact H.
Qed.

Lemma C10_rejected_record_adds_nothing_witness :
  let w' :=
    World (count_article (JStr "blog") (self loaded_world))
      (error_count_dict loaded_world) (draws loaded_world + 1) in
  process_entry sample_split sample_sentences sample_repr sample_random
    loaded_world record_without_text = Raise "Entry has no text." w'
  /\ metadata (self (handler "Entry has no text." w'))
     = metadata (self loaded_world)
  /\ embedding_strings (self (handler "Entry has no text." w'))
     = embedding_strings (self loaded_world).
Proof.
  intros w'.
  assert (H : process_entry sample_split sample_sentences sample_repr
                sample_random loaded_world record_without_text
              = Raise "Entry has no text." w') by (vm_compute; reflexivity).
  split; [exact H |].
  exact (C10_rejected_record_adds_nothing _ _ _ _ _ _ _ _ H).
Defined.

(** Claim C9 as it is worded: every record without [source] that has a
    [question] and an [answer] is skipped. The record below is such a record;
    its [url] matches the Cold Takes rule, which line 138 tests first, so it
    is counted, gets a metadata tuple, and contributes a block. *)
Lemma C9_cold_takes_printout_is_ingested :
  has "source" cold_takes_printout = false
  /\ has "question" cold_takes_printout = true
  /\ has "answer" cold_takes_printout = true
  /\ exists w,
       process_entry sample_split sample_sentences sample_repr sample_random
         sample_world cold_takes_printout = Continue w
       /\ total_articles_count (self w) = 1
       /\ length (metadata (self w)) = 1
       /\ embedding_strings (self w)
          = ["URL: https://www.cold-takes.com/: Some text."].
Proof.
  repeat split; try reflexivity.
  eexists. split; [vm_compute; reflexivity |].
  repeat split; reflexivity.
Qed.

(** C9, amended. A record without [source] that has a [question] and an
    [answer] is skipped unless its [url] is "https://www.cold-takes.com/":
    the pass leaves the whole state as it was, so the record is not counted,
    adds no metadata and no blocks, draws no random number and tallies no
    error. *)
Theorem C9_printout_is_skipped :
  forall split sentences repr random w entry,
    has "source" entry = false ->
    has "question" entry = true ->
    has "answer" entry = true ->
    has "url" entry && py_eq_str entry.["url"] "https://www.cold-takes.com/"
      = false ->
    process_entry split sentences repr random w entry = Continue w.
Proof.
  intros split sentences repr random w entry Hs Hq Ha Hu.
  unfold process_entry, resolve_source.
  rewrite Hs, Hu, Hq, Ha. reflexivity.
Qed.

Lemma C9_printout_is_skipped_witness :
  has "source" printout = false
  /\ has "question" printout = true
  /\ has "answer" printout = true
  /\ has "url" printout && py_eq_str printout.["url"] "https://www.cold-takes.com/"
     = false
  /\ process_entry sample_split sample_sentences sample_repr sample_random
       sample_world printout = Continue sample_world.
Proof.
  do 4 (split; [reflexivity |]).
  apply (C9_printout_is_skipped sample_split sample_sentences sample_repr
           sample_random sample_world printout); reflexivity.
Defined.

(** ** C7: which bad records the pass survives *)

Lemma strip_newline_total v :
  str_or_null v = true -> truthy v = true -> exists r, strip_newline v = Ok r.
Proof.
  destruct v as [| | |s| |]; try discriminate. intros _ Ht.
  destruct s as [|c s]; [discriminate |].
  unfold strip_newline. cbn [py_last String.length bind].
  destruct (py_eq_str _ _); cbn; eauto.
Qed.

Lemma get_title_total a :
  field_ok str_or_null "title" a = true ->
  field_ok str_or_null "book_title" a = true ->
  exists r, get_title a = Ok r.
Proof.
  unfold field_ok, get_title. intros Ht Hb.
  destruct (has "title" a), (has "book_title" a); simpl in *.
  all: try (destruct (truthy _) eqn:E1).
  all: try (destruct (truthy _) eqn:E2).
  all: eauto using strip_newline_total.
Qed.

Lemma long_enough_total k n a :
  field_ok str_or_null k a = true ->
  long_enough k n a = Ok false
  \/ long_enough k n a = Ok true /\ exists s, a.[k] = JStr s.
Proof.
  unfold field_ok, long_enough. intros H.
  destruct (has k a); cbn in *; [| auto].
  destruct (a.[k]) as [| | |s| |] eqn:E; try discriminate; cbn; [auto |].
  destruct (negb _); cbn; [| auto].
  destruct (n <=? String.length s)%nat; eauto.
Qed.

Lemma get_date_published_total a :
  field_ok str_or_null "date_published" a = true ->
  field_ok str_or_null "published" a = true ->
  exists r, get_date_published a = Ok r.
Proof.
  intros H1 H2. unfold get_date_published.
  destruct (long_enough_total "date_published" 10 a H1) as [-> | [-> [s ->]]];
    cbn; [| eauto].
  destruct (long_enough_total "published" 16 a H2) as [-> | [-> [s ->]]];
    cbn; eauto.
Qed.

Lemma join_terms_total vals :
  forallb tag_ok vals = true ->
  exists terms joined,
    mapM py_term vals = Ok terms
    /\ forallb is_str terms = true
    /\ py_join ", " terms = Ok joined.
Proof.
  induction vals as [|val vals IH]; cbn [forallb mapM].
  - intros _. exists [], "". auto.
  - intros [Hval Hvals]%andb_prop.
    destruct (IH Hvals) as (terms & joined & -> & Hstr & Hjoin).
    destruct val as [| | | | |o]; try discriminate. cbn in Hval |- *.
    apply andb_prop in Hval as [-> Hterm].
    destruct (o.["term"]) as [| | |s| |] eqn:E; try discriminate. cbn.
    destruct terms as [|t terms'].
    + exists [JStr s], s. auto.
    + exists (JStr s :: t :: terms'), (s +:+ ", " +:+ joined).
      split; [reflexivity |]. split; [exact Hstr |].
      cbn [py_join]. cbn [py_join] in Hjoin. rewrite Hjoin. reflexivity.
Qed.

Lemma get_tags_total a :
  field_ok tags_ok "tags" a = true -> exists r, get_tags a = Ok r.
Proof.
  unfold field_ok, get_tags. intros H.
  destruct (has "tags" a); cbn in *; [| eauto].
  destruct (truthy _); [| eauto].
  destruct (a.["tags"]) as [| | | |vals|]; eauto.
  destruct (join_terms_total vals H) as (terms & joined & -> & _ & Hj).
  cbn. rewrite Hj. cbn. eauto.
Qed.

Lemma get_text_total a :
  field_ok str_or_null "text" a = true ->
  (exists s, get_text a = Ok (JStr s))
  \/ get_text a = Missing "Entry has no text.".
Proof.
  unfold field_ok, get_text. intros H.
  destruct (has "text" a); cbn in *; [| auto].
  destruct (a.["text"]) as [| | |s| |]; try discriminate; cbn; [auto |].
  destruct (negb _); eauto.
Qed.

(** On a well-typed record the extraction returns a tuple whose text is a
    string, or rejects the record; it raises nothing else. *)
Lemma extract_info_total a :
  well_typed a = true ->
  (exists info s, extract_info_from_article a = Ok info /\ info_text info = JStr s)
  \/ extract_info_from_article a = Missing "Entry has no text.".
Proof.
  unfold well_typed. intros H.
  repeat (apply andb_prop in H as [H ?]).
  unfold extract_info_from_article.
  destruct (get_title_total a) as [t ->]; [done.. |].
  destruct (get_date_published_total a) as [d ->]; [done.. |].
  destruct (get_tags_total a) as [g ->]; [done |].
  destruct (get_text_total a) as [[s ->] | ->]; [done | |]; cbn; eauto.
Qed.

Lemma well_typed_dict_set source entry :
  well_typed entry = true ->
  well_typed (dict_set "source" (JStr source) entry) = true.
Proof.
  unfold well_typed, field_ok, dict_set. intros H.
  repeat (apply andb_prop in H as [H ?]). cbn.
  repeat (apply andb_true_intro; split); first [assumption | reflexivity].
Qed.

(** The fallback rules raise nothing but [MissingDataException] on a
    well-typed record, and leave it well typed with a source that can be a
    key of [articles_count]. *)
Lemma resolve_source_total entry :
  well_typed entry = true ->
  resolve_source entry = Ok None
  \/ resolve_source entry = Missing "Entry has no source."
  \/ exists entry',
       resolve_source entry = Ok (Some entry')
       /\ well_typed entry' = true
       /\ hashable entry'.["source"] = true.
Proof.
  intros H. unfold resolve_source.
  destruct (has "source" entry) eqn:Hs; cbn [negb].
  - right. right. exists entry. repeat split; [exact H |].
    unfold well_typed, field_ok in H.
    repeat (apply andb_prop in H as [H ?]).
    rewrite Hs in *. cbn in *.
    by destruct (entry.["source"]).
  - repeat match goal with
           | |- context [if ?c then Ok (Some _) else _] => destruct c
           | |- context [if ?c then Ok None else _] => destruct c
           end;
      eauto 7 using well_typed_dict_set.
    destruct (has "url" entry) eqn:Hu; [| auto].
    assert (Hurl : is_str entry.["url"] = true).
    { unfold well_typed, field_ok in H.
      repeat (apply andb_prop in H as [H ?]).
      rewrite Hu in *. assumption. }
    destruct (entry.["url"]); try discriminate. cbn.
    destruct (String.eqb _ _); eauto 7 using well_typed_dict_set.
Qed.

Section LoaderTotal.

Variable split : Z -> Z -> string -> string -> list string.
Variable sentences : string -> list string.
Variable repr : json -> string.
Variable random : nat -> Q.

Lemma process_entry_total w entry :
  well_typed entry = true ->
  process_entry split sentences repr random w entry <> Crash.
Proof.
  intros H. unfold process_entry.
  destruct (resolve_source_total entry H)
    as [-> | [-> | (entry' & -> & Hwt & Hh)]]; [done.. |].
  cbn zeta. destruct (negb (Qle_bool _ _)); [done |].
  destruct (match custom_sources _ with Some _ => _ | None => _ end); [done |].
  cbn [self]. rewrite Hh. cbn [negb].
  destruct (extract_info_total entry' Hwt) as [(info & s & -> & ->) | ->];
    done.
Qed.

Lemma get_alignment_texts_total reader :
  forallb well_typed reader = true ->
  forall w, is_Some (get_alignment_texts split sentences repr random w reader).
Proof.
  induction reader as [|entry rest IH]; cbn [forallb get_alignment_texts].
  - intros _ w. eauto.
  - intros [He Hrest]%andb_prop w.
    pose proof (process_entry_total w entry He) as Hne.
    destruct (process_entry _ _ _ _ w entry); [auto.. | done].
Qed.

End LoaderTotal.

(** Claim C7 as it is worded: a pass over valid records and one record with
    a wrongly typed or null field never aborts. A numeric [title] makes
    [title[-1]] on line 99 raise a [TypeError], and a [null] url on a record
    without source makes [entry['url'][:24]] on line 147 raise one; the
    [except] clause catches neither, and the pass ends there. *)
Lemma C7_wrongly_typed_field_aborts :
  get_alignment_texts sample_split sample_sentences sample_repr sample_random
    sample_world [valid_record; record_with_numeric_title; valid_record] = None
  /\ get_alignment_texts sample_split sample_sentences sample_repr sample_random
       sample_world [valid_record; record_with_null_url; valid_record] = None.
Proof. split; vm_compute; reflexivity. Qed.

(** C7, amended. A pass over records whose fields have the expected types,
    any of which may be missing or empty, never aborts. Whenever a record is
    rejected, its reason string is a key of the error counts afterwards, one
    above its previous count and created at zero when it was not yet a key,
    no other key changes, and the loop goes on with the remaining
    records. *)
Theorem C7_pass_survives_missing_fields :
  forall split sentences repr random reader,
    forallb well_typed reader = true ->
    (forall w, is_Some (get_alignment_texts split sentences repr random w reader))
    /\ (forall w entry rest reason w',
          process_entry split sentences repr random w entry = Raise reason w' ->
          error_count_dict (handler reason w') !! reason
          = Some (default 0 (error_count_dict w' !! reason) + 1)
          /\ (forall other, reason <> other ->
                error_count_dict (handler reason w') !! other
                = error_count_dict w' !! other)
          /\ get_alignment_texts split sentences repr random w (entry :: rest)
             = get_alignment_texts split sentences repr random
                 (handler reason w') rest).
Proof.
  intros split sentences repr random reader H. split.
  - by apply get_alignment_texts_total.
  - intros w entry rest reason w' Hr. split; [apply tally_lookup |].
    split; [intros other Hne; by apply tally_lookup_ne |].
    by apply pass_after_raise.
Qed.

Lemma C7_pass_survives_missing_fields_witness :
  let reader := [record_without_text; printout; valid_record] in
  forallb well_typed reader = true
  /\ (forall w,
        is_Some (get_alignment_texts sample_split sample_sentences sample_repr
                   sample_random w reader))
  /\ (forall w entry rest reason w',
        process_entry sample_split sample_sentences sample_repr sample_random
          w entry = Raise reason w' ->
        error_count_dict (handler reason w') !! reason
        = Some (default 0 (error_count_dict w' !! reason) + 1)
        /\ (forall other, reason <> other ->
              error_count_dict (handler reason w') !! other
              = error_count_dict w' !! other)
        /\ get_alignment_texts sample_split sample_sentences sample_repr
             sample_random w (entry :: rest)
           = get_alignment_texts sample_split sample_sentences sample_repr
               sample_random (handler reason w') rest).
Proof.
  intros reader. split; [reflexivity |].
  apply (C7_pass_survives_missing_fields sample_split sample_sentences
           sample_repr sample_random reader).
  reflexivity.
Defined.

(** ** C6: the precedence of the field names *)

(** Whatever the order of the names, either the two records with the short
    date or the two records with the long dates have the same first present
    field. *)
Lemma dated_first_field present names :
  (forall s, s <> "" -> present (JStr s) = true) ->
  first_field present names (dated "2020" "2020-01-01T00:00:00Z")
  = first_field present names (dated "2020" "2021-06-30T12:00:00Z")
  \/ first_field present names (dated "2020-01-01" "2020-01-01T00:00:00Z")
     = first_field present names (dated "2021-06-30" "2020-01-01T00:00:00Z").
Proof.
  intros Hp. induction names as [|k names IH]; [by left |].
  destruct (String.eqb_spec k "date_published") as [-> | Hd].
  - left. cbn. by rewrite Hp.
  - destruct (String.eqb_spec k "published") as [-> | Hpub].
    + right. cbn. by rewrite Hp.
    + apply String.eqb_neq in Hd, Hpub.
      unfold dated in *. cbn [first_field has item]. rewrite Hd, Hpub.
      exact IH.
Qed.

Lemma date_not_first_present present names :
  (forall s, s <> "" -> present (JStr s) = true) ->
  ~ first_present_wins present names get_date_published.
Proof.
  intros Hp Hwins.
  destruct (dated_first_field present names Hp) as [E | E];
    apply Hwins in E; vm_compute in E; discriminate.
Qed.

(** Claim C6 as it is worded, for the date: whether a field is present when
    the record has the key, or when its value is also non-empty, no ordered
    list of names makes the first present field determine the date. With
    [date_published] "2020" the date is the first 16 characters of
    [published], whatever that is: line 109 also asks for 10 characters.
    For the title: a record with an empty [title] and a [book_title] gets no
    title, although [book_title] is its first non-empty field and gives the
    title of a record that has no [title] key. *)
Lemma C6_date_is_not_first_present :
  (~ exists names, first_present_wins (fun _ => true) names get_date_published)
  /\ (~ exists names, first_present_wins truthy names get_date_published)
  /\ get_date_published (dated "2020" "2020-01-01T00:00:00Z")
     = Ok (JStr "2020-01-01T00:00")
  /\ get_date_published (dated "2020" "2021-06-30T12:00:00Z")
     = Ok (JStr "2021-06-30T12:00")
  /\ get_title [("title", JStr ""); ("book_title", JStr "B")] = Ok JNull
  /\ first_present truthy ["title"; "book_title"]
       [("title", JStr ""); ("book_title", JStr "B")] = JStr "B"
  /\ get_title [("book_title", JStr "B")] = Ok (JStr "B").
Proof.
  split; [| split; [| repeat split; reflexivity]].
  - intros [names H]. by apply (date_not_first_present (fun _ => true) names).
  - intros [names H]. apply (date_not_first_present truthy names); [| done].
    intros s Hs. cbn. by apply String.eqb_neq in Hs as ->.
Qed.

(** [first_field] over one or two names, written out. *)
Lemma first_field_truthy_cons k names a :
  first_field truthy (k :: names) a
  = if has k a && truthy a.[k] then Some (k, a.[k])
    else first_field truthy names a.
Proof. reflexivity. Qed.

(** C6, amended. For every record: the author is the first non-empty field
    among [author], [authors], and the url the first non-empty field among
    [link], [url], [doi]; tags and text are read from the single fields
    [tags] and [text] when they are non-empty, and a record without text is
    rejected; the date is the first field among [date_published] (10
    characters) and [published] (16 characters) that is non-empty and at
    least that long, cut to that length; the title is [title] when that is
    non-empty, up to a trailing newline, and [book_title] without its
    trailing newline only when the record has no [title] key at all. An
    attribute that no field provides is [None]. *)
Theorem C6_extraction_precedence :
  forall article : dict,
    get_author article = first_present truthy ["author"; "authors"] article
    /\ get_url article = first_present truthy ["link"; "url"; "doi"] article
    /\ get_tags article
       = match first_field truthy ["tags"] article with
         | Some (_, JList vals) =>
             terms <- mapM py_term vals ;;
             joined <- py_join ", " terms ;;
             Ok (JStr joined)
         | Some (_, JStr s) => Ok (JStr s)
         | _ => Ok JNull
         end
    /\ get_text article
       = match first_field truthy ["text"] article with
         | Some (_, v) => Ok v
         | None => Missing "Entry has no text."
         end
    /\ get_date_published article
       = first_long_enough [("date_published", 10); ("published", 16)] article
    /\ match first_field truthy ["title"] article with
       | Some (_, v) =>
           get_title article = Ok v \/ get_title article = strip_newline v
       | None =>
           get_title article
           = if has "title" article then Ok JNull
             else match first_field truthy ["book_title"] article with
                  | Some (_, v) => strip_newline v
                  | None => Ok JNull
                  end
       end.
Proof.
  intros article. split; [| split; [| split; [| split; [| split]]]].
  - unfold get_author, first_present. rewrite !first_field_truthy_cons.
    destruct (has "author" article), (has "authors" article); cbn [andb].
    all: repeat (destruct (truthy _)).
    all: reflexivity.
  - unfold get_url, first_present. rewrite !first_field_truthy_cons.
    cbn [first_field].
    repeat (destruct (_ && _)).
    all: reflexivity.
  - unfold get_tags. rewrite first_field_truthy_cons. cbn [first_field].
    destruct (_ && _); reflexivity.
  - unfold get_text. rewrite first_field_truthy_cons. cbn [first_field].
    destruct (_ && _); reflexivity.
  - unfold get_date_published, first_long_enough.
    destruct (long_enough "date_published" 10 article) as [[|]| |];
      reflexivity.
  - unfold get_title. rewrite !first_field_truthy_cons. cbn [first_field].
    destruct (has "title" article), (has "book_title" article);
      cbn [andb negb].
    all: repeat (destruct (truthy _)).
    all: auto.
Qed.

(** ** Rounding to a double *)

Section Binary64Facts.

Local Open Scope Q_scope.

Lemma two_pow_pos e : 0 < 2 ^ e.
Proof. apply Qpower_0_lt. reflexivity. Qed.

Lemma two_pow_le e e' : (e <= e')%Z -> 2 ^ e <= 2 ^ e'.
Proof. intros H. apply Qpower_le_compat_l; [exact H | lra]. Qed.

Lemma two_pow_lt e e' : (e < e')%Z -> 2 ^ e < 2 ^ e'.
Proof. intros H. apply Qpower_lt_compat_l; [exact H | lra]. Qed.

Lemma two_pow_plus e e' : 2 ^ (e + e') == 2 ^ e * 2 ^ e'.
Proof. apply Qpower_plus. lra. Qed.

Lemma two_pow_Z n : (0 <= n)%Z -> inject_Z (2 ^ n) == 2 ^ n.
Proof. apply (Zpower_Qpower 2 n). Qed.

Lemma ilog2_spec q : 0 < q -> 2 ^ ilog2 q <= q /\ q < 2 ^ (ilog2 q + 1).
Proof.
  intros Hq. destruct q as [a b].
  assert (Ha : (0 < a)%Z) by (unfold Qlt in Hq; simpl in Hq; lia).
  unfold ilog2. cbn [Qnum Qden].
  destruct (Z.log2_spec a Ha) as [Ha1 Ha2].
  destruct (Z.log2_spec (Zpos b) eq_refl) as [Hb1 Hb2].
  pose proof (Z.log2_nonneg a) as Hla.
  pose proof (Z.log2_nonneg (Zpos b)) as Hlb.
  set (la := Z.log2 a) in *. set (lb := Z.log2 (Zpos b)) in *.
  assert (HA1 : 2 ^ la <= inject_Z a).
  { rewrite <- two_pow_Z by exact Hla. by rewrite <- Zle_Qle. }
  assert (HA2 : inject_Z a < 2 ^ (la + 1)).
  { rewrite <- two_pow_Z by lia. rewrite <- Zlt_Qlt. exact Ha2. }
  assert (HB1 : 2 ^ lb <= inject_Z (Zpos b)).
  { rewrite <- two_pow_Z by exact Hlb. by rewrite <- Zle_Qle. }
  assert (HB2 : inject_Z (Zpos b) < 2 ^ (lb + 1)).
  { rewrite <- two_pow_Z by lia. rewrite <- Zlt_Qlt. exact Hb2. }
  assert (Hab : (a # b) * inject_Z (Zpos b) == inject_Z a).
  { unfold Qeq, Qmult, inject_Z. cbn [Qnum Qden]. rewrite Pos.mul_1_r. ring. }
  set (q := a # b) in *. set (A := inject_Z a) in *.
  set (B := inject_Z (Zpos b)) in *.
  pose proof (two_pow_pos lb) as Rpos.
  pose proof (two_pow_pos (lb + 1)) as Rpos'.
  destruct (Qle_bool (2 ^ (la - lb)) q) eqn:E.
  - apply Qle_bool_iff in E. split; [exact E |].
    assert (HX : 2 ^ (la - lb + 1) * 2 ^ lb == 2 ^ (la + 1)).
    { rewrite <- two_pow_plus.
      by replace (la - lb + 1 + lb)%Z with (la + 1)%Z by lia. }
    apply Qnot_le_lt. intros Hge.
    assert (H1 : 2 ^ (la - lb + 1) * 2 ^ lb <= q * 2 ^ lb)
      by (apply Qmult_le_compat_r; lra).
    assert (H2 : q * 2 ^ lb <= q * B)
      by (rewrite !(Qmult_comm q); apply Qmult_le_compat_r; lra).
    lra.
  - assert (Hlt : q < 2 ^ (la - lb)).
    { apply Qnot_le_lt. intros Hle. apply Qle_bool_iff in Hle. congruence. }
    split; [| by replace (la - lb - 1 + 1)%Z with (la - lb)%Z by lia].
    assert (HY : 2 ^ (la - lb - 1) * 2 ^ (lb + 1) == 2 ^ la).
    { rewrite <- two_pow_plus.
      by replace (la - lb - 1 + (lb + 1))%Z with la by lia. }
    apply Qnot_lt_le. intros Hlt'.
    assert (H1 : q * 2 ^ (lb + 1) <= 2 ^ (la - lb - 1) * 2 ^ (lb + 1))
      by (apply Qmult_le_compat_r; lra).
    assert (H2 : q * B <= q * 2 ^ (lb + 1))
      by (rewrite !(Qmult_comm q); apply Qmult_le_compat_r; lra).
    assert (H3 : q * 2 ^ (lb + 1) < 2 ^ (la - lb - 1) * 2 ^ (lb + 1))
      by (apply Qmult_lt_compat_r; lra).
    lra.
Qed.

Lemma ilog2_mono x y : 0 < x -> x <= y -> (ilog2 x <= ilog2 y)%Z.
Proof.
  intros Hx Hxy.
  destruct (ilog2_spec x Hx) as [Hx1 _].
  destruct (ilog2_spec y) as [_ Hy2]; [lra |].
  destruct (Z_le_gt_dec (ilog2 x) (ilog2 y)) as [H | H]; [exact H |].
  pose proof (two_pow_le (ilog2 y + 1) (ilog2 x) ltac:(lia)). lra.
Qed.


Lemma round_half_even_floor q :
  (Qfloor q <= round_half_even q <= Qfloor q + 1)%Z.
Proof.
  unfold round_half_even. destruct (_ ?= _); [destruct (Z.even _) | |]; lia.
Qed.

Lemma round_half_even_Z n : round_half_even (inject_Z n) = n.
Proof.
  unfold round_half_even. rewrite Qfloor_Z.
  destruct (Qcompare_spec (inject_Z n - inject_Z n) (1 # 2)) as [H | H | H];
    [lra | reflexivity | lra].
Qed.

Lemma round_half_even_mono p q :
  p <= q -> (round_half_even p <= round_half_even q)%Z.
Proof.
  intros Hpq. pose proof (Qfloor_resp_le p q Hpq) as Hf.
  pose proof (round_half_even_floor p) as Hp.
  pose proof (round_half_even_floor q) as Hq.
  destruct (Z.eq_dec (Qfloor p) (Qfloor q)) as [He | Hne]; [| lia].
  clear Hp Hq Hf. unfold round_half_even. rewrite <- He.
  destruct (Qcompare_spec (p - inject_Z (Qfloor p)) (1 # 2)) as [H1 | H1 | H1];
    destruct (Qcompare_spec (q - inject_Z (Qfloor p)) (1 # 2)) as [H2 | H2 | H2];
    try destruct (Z.even (Qfloor p)); try lia; lra.
Qed.

Lemma round_half_even_error q :
  Qabs (inject_Z (round_half_even q) - q) <= 1 # 2.
Proof.
  pose proof (Qfloor_le q) as Hl. pose proof (Qlt_floor q) as Hu.
  rewrite inject_Z_plus in Hu. change (inject_Z 1) with 1 in Hu.
  unfold round_half_even.
  destruct (Qcompare_spec (q - inject_Z (Qfloor q)) (1 # 2)) as [H | H | H];
    [destruct (Z.even (Qfloor q)) | |];
    rewrite ?inject_Z_plus; change (inject_Z 1) with 1;
    apply Qabs_Qle_condition; lra.
Qed.

(** The last place of the double nearest to a positive [q]. *)
Lemma binary64_pos_eq q :
  binary64_pos q
  = inject_Z (round_half_even (q / 2 ^ Z.max (ilog2 q - 52) (-1074)))
    * 2 ^ Z.max (ilog2 q - 52) (-1074).
Proof. reflexivity. Qed.

Lemma scaled_lt q :
  0 < q -> q / 2 ^ Z.max (ilog2 q - 52) (-1074) < 2 ^ 53.
Proof.
  intros Hq. destruct (ilog2_spec q Hq) as [_ Hu].
  set (e := Z.max (ilog2 q - 52) (-1074)).
  apply Qlt_shift_div_r; [apply two_pow_pos |].
  rewrite <- two_pow_plus.
  pose proof (two_pow_le (ilog2 q + 1) (53 + e) ltac:(lia)). lra.
Qed.

Lemma binary64_pos_upper q :
  0 < q ->
  binary64_pos q <= 2 ^ (Z.max (ilog2 q - 52) (-1074) + 53).
Proof.
  intros Hq. rewrite binary64_pos_eq.
  set (e := Z.max (ilog2 q - 52) (-1074)).
  pose proof (scaled_lt q Hq) as Hs. fold e in Hs.
  rewrite (Z.add_comm e), two_pow_plus.
  apply Qmult_le_compat_r; [| apply Qlt_le_weak, two_pow_pos].
  rewrite <- (two_pow_Z 53) by lia. rewrite <- Zle_Qle.
  rewrite <- (round_half_even_Z (2 ^ 53)).
  apply round_half_even_mono. rewrite two_pow_Z by lia. lra.
Qed.

Lemma binary64_pos_lower q :
  0 < q -> (-1022 <= ilog2 q)%Z ->
  2 ^ ilog2 q <= binary64_pos q.
Proof.
  intros Hq He. destruct (ilog2_spec q Hq) as [Hl _].
  rewrite binary64_pos_eq.
  replace (Z.max (ilog2 q - 52) (-1074)) with (ilog2 q - 52)%Z by lia.
  set (e := (ilog2 q - 52)%Z).
  replace (ilog2 q) with (52 + e)%Z in * by (unfold e; lia).
  rewrite two_pow_plus in *.
  apply Qmult_le_compat_r; [| apply Qlt_le_weak, two_pow_pos].
  rewrite <- (two_pow_Z 52) by lia. rewrite <- Zle_Qle.
  rewrite <- (round_half_even_Z (2 ^ 52)) at 1.
  apply round_half_even_mono. rewrite two_pow_Z by lia.
  apply Qle_shift_div_l; [apply two_pow_pos | exact Hl].
Qed.

Lemma binary64_pos_nonneg q : 0 < q -> 0 <= binary64_pos q.
Proof.
  intros Hq. rewrite binary64_pos_eq.
  apply Qmult_le_0_compat; [| apply Qlt_le_weak, two_pow_pos].
  change 0 with (inject_Z 0). rewrite <- Zle_Qle.
  rewrite <- (round_half_even_Z 0) at 1.
  apply round_half_even_mono. change (inject_Z 0) with 0.
  apply Qle_shift_div_l; [apply two_pow_pos | lra].
Qed.

Lemma binary64_pos_mono x y :
  0 < x -> x <= y -> binary64_pos x <= binary64_pos y.
Proof.
  intros Hx Hxy. assert (Hy : 0 < y) by lra.
  pose proof (ilog2_mono x y Hx Hxy) as Hlog.
  destruct (Z.eq_dec (Z.max (ilog2 x - 52) (-1074))
              (Z.max (ilog2 y - 52) (-1074))) as [He | Hne].
  - rewrite !binary64_pos_eq, <- He.
    apply Qmult_le_compat_r; [| apply Qlt_le_weak, two_pow_pos].
    rewrite <- Zle_Qle. apply round_half_even_mono.
    apply Qmult_le_compat_r; [exact Hxy |].
    apply Qlt_le_weak, Qinv_lt_0_compat, two_pow_pos.
  - apply Qle_trans with (2 ^ (Z.max (ilog2 x - 52) (-1074) + 53));
      [by apply binary64_pos_upper |].
    apply Qle_trans with (2 ^ ilog2 y);
      [apply two_pow_le; lia | apply binary64_pos_lower; [exact Hy | lia]].
Qed.

Lemma binary64_mono x y : 0 <= x -> x <= y -> binary64 x <= binary64 y.
Proof.
  intros Hx Hxy. unfold binary64.
  destruct x as [[|a|a] b] eqn:Ex, y as [[|c|c] d] eqn:Ey; cbn [Qnum].
  - lra.
  - by apply binary64_pos_nonneg.
  - exfalso. unfold Qle in Hxy. simpl in Hxy. lia.
  - exfalso. unfold Qle in Hxy. simpl in Hxy. lia.
  - by apply binary64_pos_mono.
  - exfalso. unfold Qle in Hxy. simpl in Hxy. lia.
  - exfalso. unfold Qle in Hx. simpl in Hx. lia.
  - exfalso. unfold Qle in Hx. simpl in Hx. lia.
  - exfalso. unfold Qle in Hx. simpl in Hx. lia.
Qed.

Lemma binary64_proper x y : 0 <= x -> x == y -> binary64 x == binary64 y.
Proof.
  intros Hx Hxy. apply Qle_antisym; apply binary64_mono; lra.
Qed.

(** Rounding stays between two doubles. *)
Lemma binary64_between a b x :
  0 <= a -> binary64 a == a -> binary64 b == b -> a <= x <= b ->
  a <= binary64 x <= b.
Proof.
  intros Ha Hfa Hfb [Hax Hxb]. split.
  - rewrite <- Hfa. by apply binary64_mono.
  - rewrite <- Hfb. apply binary64_mono; lra.
Qed.


Lemma round_half_even_proper p q :
  p == q -> round_half_even p = round_half_even q.
Proof.
  intros H. apply Z.le_antisymm; apply round_half_even_mono; lra.
Qed.

(** [random.uniform(a, b)] stays between [a] and [b] when these and their
    difference are doubles. *)
Lemma uniform_bounds a b r :
  0 <= a <= b -> binary64 a == a -> binary64 b == b ->
  binary64 (b - a) == b - a -> 0 <= r <= 1 ->
  a <= uniform a b r <= b.
Proof.
  intros [Ha Hab] Hfa Hfb Hfc [Hr0 Hr1]. unfold uniform.
  set (c := binary64 (b - a)) in *.
  assert (Hc : 0 <= c) by lra.
  assert (Hfcc : binary64 c == c).
  { unfold c at 2. apply binary64_proper; [exact Hc | exact Hfc]. }
  assert (Hp : 0 <= binary64 (c * r) <= c).
  { apply binary64_between; [lra | reflexivity | exact Hfcc |]. nra. }
  apply binary64_between; [exact Ha | exact Hfa | exact Hfb |]. lra.
Qed.

Lemma ilog2_Z n : (0 < n)%Z -> ilog2 (inject_Z n) = Z.log2 n.
Proof.
  intros Hn. unfold ilog2, inject_Z. cbn [Qnum Qden].
  change (Z.log2 1) with 0%Z. rewrite Z.sub_0_r.
  destruct (Z.log2_spec n Hn) as [Hl _].
  pose proof (Z.log2_nonneg n) as H0.
  assert (H : Qle_bool (2 ^ Z.log2 n) (n # 1) = true).
  { apply Qle_bool_iff. change (n # 1) with (inject_Z n).
    rewrite <- two_pow_Z by exact H0. by rewrite <- Zle_Qle. }
  by rewrite H.
Qed.

(** The integers below 2^53 are doubles. *)
Lemma binary64_Z n : (0 < n < 2 ^ 53)%Z -> binary64 (inject_Z n) == inject_Z n.
Proof.
  intros [Hn Hu].
  assert (Hq : 0 < inject_Z n) by (change 0 with (inject_Z 0); by rewrite <- Zlt_Qlt).
  unfold binary64. destruct n as [|p|p] eqn:En; [lia | | lia].
  cbn [Qnum inject_Z]. change (Z.pos p # 1) with (inject_Z (Z.pos p)).
  rewrite <- En in *. clear p En.
  rewrite binary64_pos_eq, ilog2_Z by exact Hn.
  pose proof (Z.log2_nonneg n) as H0.
  assert (Hl : (Z.log2 n < 53)%Z) by (apply Z.log2_lt_pow2; lia).
  replace (Z.max (Z.log2 n - 52) (-1074)) with (- (52 - Z.log2 n))%Z by lia.
  set (k := (52 - Z.log2 n)%Z). assert (Hk : (0 <= k)%Z) by (unfold k; lia).
  pose proof (two_pow_pos k) as Hpos.
  assert (Hs : inject_Z n / 2 ^ (- k) == inject_Z (n * 2 ^ k)).
  { rewrite Qpower_opp, inject_Z_mult, two_pow_Z by exact Hk.
    field. lra. }
  rewrite (round_half_even_proper _ _ Hs), round_half_even_Z.
  rewrite Qpower_opp, inject_Z_mult, two_pow_Z by exact Hk.
  field. lra.
Qed.

(** Rounding a number of the normal range moves it by at most one part in
    2^53. *)
Lemma binary64_error x :
  2 ^ (-1022) <= x -> Qabs (binary64 x - x) <= x / 2 ^ 53.
Proof.
  intros Hx. pose proof (two_pow_pos (-1022)) as Hmin.
  assert (Hpos : 0 < x) by lra.
  destruct (ilog2_spec x Hpos) as [Hl Hu].
  assert (He : (-1022 <= ilog2 x)%Z).
  { assert ((-1022 < ilog2 x + 1)%Z); [| lia].
    apply (Qpower_lt_compat_l_inv 2); lra. }
  unfold binary64. destruct x as [[|a|a] b] eqn:Ex;
    [exfalso; unfold Qlt in Hpos; simpl in Hpos; lia | |
     exfalso; unfold Qlt in Hpos; simpl in Hpos; lia].
  cbn [Qnum]. rewrite <- Ex in *. clear a b Ex.
  rewrite binary64_pos_eq.
  replace (Z.max (ilog2 x - 52) (-1074)) with (ilog2 x - 52)%Z by lia.
  set (e := (ilog2 x - 52)%Z).
  replace (ilog2 x) with (52 + e)%Z in Hl by (unfold e; lia).
  rewrite two_pow_plus in Hl.
  pose proof (two_pow_pos e) as Hpe.
  pose proof (round_half_even_error (x / 2 ^ e)) as Herr.
  set (m := inject_Z (round_half_even (x / 2 ^ e))) in *.
  apply Qabs_Qle_condition in Herr as [Hlo Hhi].
  assert (Hs : x / 2 ^ e * 2 ^ e == x) by (field; lra).
  assert (H53 : 2 ^ 53 == 2 * 2 ^ 52) by reflexivity.
  assert (H52 : 0 < 2 ^ 52) by reflexivity.
  assert (Hq : x / 2 ^ 53 * (2 * 2 ^ 52) == x) by (rewrite H53; field; lra).
  set (s := x / 2 ^ e) in *. set (u := x / 2 ^ 53) in *.
  set (t := 2 ^ 52) in *. set (w := 2 ^ e) in *.
  apply Qabs_Qle_condition. split; nra.
Qed.

(** Line 51 for a positive rate limit below 2^53. *)
Lemma delay_error rate :
  (0 < rate < 2 ^ 53)%Z ->
  Qabs (binary64 (60 / binary64 (inject_Z rate)) * inject_Z rate - 60)
  <= 60 / 2 ^ 53.
Proof.
  intros [H0 Hu]. pose proof (binary64_Z rate (conj H0 Hu)) as Hr.
  assert (HR : 0 < inject_Z rate)
    by (change 0 with (inject_Z 0); by rewrite <- Zlt_Qlt).
  assert (HR' : inject_Z rate < 2 ^ 53)
    by (rewrite <- two_pow_Z by lia; by rewrite <- Zlt_Qlt).
  assert (Hx : 60 / binary64 (inject_Z rate) == 60 / inject_Z rate)
    by (by rewrite Hr).
  assert (Hpos : 0 <= 60 / binary64 (inject_Z rate)).
  { rewrite Hx. apply Qle_shift_div_l; lra. }
  rewrite (binary64_proper _ _ Hpos Hx).
  assert (Hmin : 2 ^ (-1022) <= 60 / inject_Z rate).
  { apply Qle_trans with (2 ^ (-53)); [apply two_pow_le; lia |].
    apply Qle_shift_div_l; [exact HR |].
    assert (H1 : 2 ^ (-53) * 2 ^ 53 == 1) by reflexivity.
    pose proof (two_pow_pos (-53)). nra. }
  pose proof (binary64_error _ Hmin) as He.
  apply Qabs_Qle_condition in He as [Hlo Hhi].
  assert (Hq : 60 / inject_Z rate * inject_Z rate == 60) by (field; lra).
  assert (H53 : 0 < 2 ^ 53) by reflexivity.
  assert (Hu1 : 60 / inject_Z rate / 2 ^ 53 * inject_Z rate == 60 / 2 ^ 53).
  { field. lra. }
  set (f := binary64 (60 / inject_Z rate)) in *.
  set (x := 60 / inject_Z rate) in *. set (R := inject_Z rate) in *.
  set (u := x / 2 ^ 53) in *. set (c := 60 / 2 ^ 53) in *.
  apply Qabs_Qle_condition. split; nra.
Qed.

(** Rounding a number between 0 and 8 moves it by at most 2^-50. *)
Lemma binary64_small_error x :
  0 <= x <= 8 -> Qabs (binary64 x - x) <= 2 ^ (-50).
Proof.
  intros [H0 H8]. pose proof (two_pow_pos (-50)) as H50.
  unfold binary64. destruct x as [[|a|a] b] eqn:Ex; cbn [Qnum].
  - assert (Hz : 0 # b == 0) by reflexivity. rewrite Hz.
    apply Qabs_Qle_condition. lra.
  - assert (Hpos : 0 < Z.pos a # b) by reflexivity.
    rewrite <- Ex in *. clear a b Ex.
    destruct (ilog2_spec x Hpos) as [Hl _].
    assert (He : (ilog2 x <= 3)%Z).
    { apply (Qpower_le_compat_l_inv 2); [| lra].
      apply Qle_trans with x; [exact Hl |]. exact H8. }
    rewrite binary64_pos_eq.
    set (e := Z.max (ilog2 x - 52) (-1074)).
    pose proof (two_pow_pos e) as Hpe.
    pose proof (two_pow_le e (-49) ltac:(lia)) as Hw.
    assert (H49 : 2 ^ (-49) == 2 * 2 ^ (-50)) by reflexivity.
    pose proof (round_half_even_error (x / 2 ^ e)) as Herr.
    set (m := inject_Z (round_half_even (x / 2 ^ e))) in *.
    apply Qabs_Qle_condition in Herr as [Hlo Hhi].
    assert (Hs : x / 2 ^ e * 2 ^ e == x) by (field; lra).
    set (s := x / 2 ^ e) in *. set (w := 2 ^ e) in *.
    set (t := 2 ^ (-50)) in *. set (t' := 2 ^ (-49)) in *.
    apply Qabs_Qle_condition. split; nra.
  - exfalso. unfold Qle in H0. simpl in H0. lia.
Qed.

(** [random.uniform(a, b)] is within 2^-49 of [a + (b - a) * r]. *)
Lemma uniform_error a b r :
  0 <= a <= b -> b <= 8 -> binary64 a == a -> binary64 b == b ->
  binary64 (b - a) == b - a -> 0 <= r <= 1 ->
  Qabs (uniform a b r - (a + (b - a) * r)) <= 2 ^ (-49).
Proof.
  intros [Ha Hab] Hb Hfa Hfb Hfc [Hr0 Hr1]. unfold uniform.
  set (c := binary64 (b - a)) in *.
  assert (Hc : 0 <= c) by lra.
  assert (Hfcc : binary64 c == c).
  { unfold c at 2. apply binary64_proper; [exact Hc | exact Hfc]. }
  assert (Hp : 0 <= binary64 (c * r) <= c).
  { apply binary64_between; [lra | reflexivity | exact Hfcc |]. nra. }
  pose proof (binary64_small_error (c * r) ltac:(nra)) as E1.
  pose proof (binary64_small_error (a + binary64 (c * r)) ltac:(lra)) as E2.
  assert (H49 : 2 ^ (-49) == 2 * 2 ^ (-50)) by reflexivity.
  apply Qabs_Qle_condition in E1 as [E1l E1u].
  apply Qabs_Qle_condition in E2 as [E2l E2u].
  set (p := binary64 (c * r)) in *. set (q := binary64 (a + p)) in *.
  set (t := 2 ^ (-50)) in *. set (t' := 2 ^ (-49)) in *.
  apply Qabs_Qle_condition. split; nra.
Qed.

End Binary64Facts.

(** ** C5: the retry policy of [get_embedding_at_index] *)

Lemma wait_exponential_bounds attempt_number :
  (1 <= wait_exponential 1 1 20 attempt_number <= 20)%Q.
Proof.
  unfold wait_exponential. split.
  - apply Qle_trans with (Qmax 0 1); [apply Q.le_max_r | apply Q.le_max_l].
  - apply Q.max_lub; [apply Q.max_lub; discriminate | apply Q.le_min_r].
Qed.

(** The backoff after attempt [n] is drawn between [lowest_wait] and the
    exponential bound [c] of that attempt. *)
Lemma wait_random_exponential_window release n c r :
  wait_exponential 1 1 20 n = c ->
  wait_random_exponential release 1 20 n r = uniform (lowest_wait release) c r.
Proof. intros <-. by destruct release. Qed.

Lemma uniform_in_window release c r :
  In c [1; 2; 4; 8]%Q -> (0 <= r <= 1)%Q ->
  (lowest_wait release <= uniform (lowest_wait release) c r <= c)%Q.
Proof.
  intros Hc Hr. cbn [In] in Hc.
  destruct Hc as [<- | [<- | [<- | [<- | []]]]]; destruct release;
    cbn [lowest_wait];
    (apply uniform_bounds;
     [split; lra | vm_compute; reflexivity | vm_compute; reflexivity
      | vm_compute; reflexivity | exact Hr]).
Qed.

Lemma uniform_near_window release c r :
  In c [1; 2; 4; 8]%Q -> (0 <= r <= 1)%Q ->
  (Qabs (uniform (lowest_wait release) c r
         - (lowest_wait release + (c - lowest_wait release) * r))
   <= 2 ^ (-49))%Q.
Proof.
  intros Hc Hr. cbn [In] in Hc.
  destruct Hc as [<- | [<- | [<- | [<- | []]]]]; destruct release;
    cbn [lowest_wait];
    (apply uniform_error;
     [split; lra | lra | vm_compute; reflexivity | vm_compute; reflexivity
      | vm_compute; reflexivity | exact Hr]).
Qed.

Lemma wait_in_window release n r :
  (n < 5)%nat -> (0 <= r <= 1)%Q ->
  (lowest_wait release <= wait_random_exponential release 1 20 n r <= 8)%Q.
Proof.
  intros Hn Hr.
  destruct n as [|[|[|[|[|n]]]]]; [| | | | | lia].
  - rewrite (wait_random_exponential_window release 0 1 r eq_refl).
    pose proof (uniform_in_window release 1 r ltac:(cbn; auto) Hr). lra.
  - rewrite (wait_random_exponential_window release 1 1 r eq_refl).
    pose proof (uniform_in_window release 1 r ltac:(cbn; auto) Hr). lra.
  - rewrite (wait_random_exponential_window release 2 2 r eq_refl).
    pose proof (uniform_in_window release 2 r ltac:(cbn; auto) Hr). lra.
  - rewrite (wait_random_exponential_window release 3 4 r eq_refl).
    pose proof (uniform_in_window release 4 r ltac:(cbn; auto) Hr). lra.
  - rewrite (wait_random_exponential_window release 4 8 r eq_refl).
    pose proof (uniform_in_window release 8 r ltac:(cbn; auto 6) Hr). lra.
Qed.

Lemma requests_attempt delay text seconds trace :
  requests ([Sleep delay; Request text] ++ Backoff seconds :: trace)
  = S (requests trace).
Proof. reflexivity. Qed.

Lemma backoffs_attempt delay text seconds trace :
  backoffs ([Sleep delay; Request text] ++ Backoff seconds :: trace)
  = S (backoffs trace).
Proof. reflexivity. Qed.

Lemma waits_attempt delay text seconds trace :
  waits ([Sleep delay; Request text] ++ Backoff seconds :: trace)
  = seconds :: waits trace.
Proof. reflexivity. Qed.

Lemma backoff_ok_waits trace :
  Forall backoff_ok trace
  <-> Forall (fun seconds => (1 <= seconds <= 20)%Q) (waits trace).
Proof.
  induction trace as [|e trace IH]; [by split; constructor |].
  rewrite Forall_cons, IH. destruct e as [s | t | s]; cbn [waits flat_map app];
    fold (waits trace); cbn [backoff_ok]; [tauto | tauto |].
  by rewrite Forall_cons.
Qed.

Section RetryFacts.

Variable release : tenacity_release.
Variable create : nat -> string -> nat -> option (list Q).
Variable jitter : nat -> nat -> Q.
Variable text : string.
Variable i : nat.
Variable delay : Q.

Lemma retrying_step fuel n :
  retrying release create jitter (S fuel) n text i delay
  = match create i text n with
    | Some embedding =>
        (Returned i embedding, [Sleep delay; Request text])
    | None =>
        if stop_after_attempt 5 n
        then (RetryError, [Sleep delay; Request text])
        else
          let rest := retrying release create jitter fuel (S n) text i delay in
          (rest.1,
           ([Sleep delay; Request text]
            ++ Backoff (wait_random_exponential release 1 20 n (jitter i n))
               :: rest.2)%list)
    end.
Proof.
  cbn [retrying]. destruct (create i text n); [reflexivity |].
  destruct (stop_after_attempt 5 n); [reflexivity |].
  destruct (retrying _ _ _ _ _ _ _ _); reflexivity.
Qed.

Lemma retrying_requests_le fuel : forall n,
  (requests (retrying release create jitter fuel n text i delay).2 <= fuel)%nat.
Proof.
  induction fuel as [|fuel IH]; intros n; [cbn; lia |].
  rewrite retrying_step. destruct (create i text n); [cbn; lia |].
  destruct (stop_after_attempt 5 n); [cbn; lia |].
  specialize (IH (S n)). cbn [snd]. rewrite requests_attempt. lia.
Qed.

(** Every backoff lies in the window of its attempt. *)
Lemma retrying_waits_in_window fuel : forall n,
  (forall k, (0 <= jitter i k <= 1)%Q) ->
  Forall (fun seconds => (lowest_wait release <= seconds <= 8)%Q)
    (waits (retrying release create jitter fuel n text i delay).2).
Proof.
  intros n Hj. revert n.
  induction fuel as [|fuel IH]; intros n; [constructor |].
  rewrite retrying_step. destruct (create i text n); [constructor |].
  unfold stop_after_attempt.
  destruct (Nat.leb_spec 5 n); [constructor |].
  cbn [snd]. rewrite waits_attempt. constructor; [| apply IH].
  by apply wait_in_window.
Qed.

(** The backoffs of a call are the draws of its failed attempts, in order:
    one after each request but the last. *)
Lemma retrying_waits fuel : forall n,
  (6 <= fuel + n)%nat ->
  waits (retrying release create jitter fuel n text i delay).2
  = map (fun k => wait_random_exponential release 1 20 k (jitter i k))
      (seq n (requests (retrying release create jitter fuel n text i delay).2
              - 1)).
Proof.
  induction fuel as [|fuel IH]; intros n Hf; [reflexivity |].
  rewrite retrying_step. destruct (create i text n); [reflexivity |].
  unfold stop_after_attempt.
  destruct (Nat.leb_spec 5 n); [reflexivity |].
  cbn [snd]. rewrite waits_attempt, requests_attempt, IH by lia.
  destruct fuel as [|fuel]; [lia |].
  assert (Hr : (1 <= requests
                     (retrying release create jitter (S fuel) (S n) text i
                        delay).2)%nat).
  { rewrite retrying_step. destruct (create i text (S n)); [cbn; lia |].
    destruct (stop_after_attempt 5 (S n)); [cbn; lia |].
    cbn [snd]. rewrite requests_attempt. lia. }
  destruct (requests _) as [|m]; [lia |].
  cbn [Nat.sub seq map]. by rewrite Nat.sub_0_r.
Qed.

(** Five units of fuel are enough from the first attempt on. *)
Lemma retrying_finishes fuel : forall n,
  (1 <= fuel)%nat -> (6 <= fuel + n)%nat ->
  (retrying release create jitter fuel n text i delay).1 <> Unfinished.
Proof.
  induction fuel as [|fuel IH]; intros n Hf Hn; [lia |].
  rewrite retrying_step. destruct (create i text n); [done |].
  unfold stop_after_attempt.
  destruct (Nat.leb_spec 5 n); [done |].
  cbn. apply IH; lia.
Qed.

Lemma retrying_success fuel : forall n k v,
  first_answer create text i n k v -> (k <= 5)%nat ->
  (k - n < fuel)%nat ->
  let r := retrying release create jitter fuel n text i delay in
  r.1 = Returned i v
  /\ requests r.2 = (k - n + 1)%nat
  /\ backoffs r.2 = (k - n)%nat.
Proof.
  induction fuel as [|fuel IH]; intros n k v (Hnk & Hv & Hprev) Hk Hf;
    [lia |].
  cbn zeta. rewrite retrying_step.
  destruct (create i text n) as [e|] eqn:E.
  - destruct (decide (k = n)) as [-> | Hne].
    + replace e with v by congruence. cbn.
      repeat split; lia.
    + rewrite Hprev in E by lia. discriminate.
  - assert (n < k)%nat.
    { destruct (decide (k = n)) as [-> | Hne]; [congruence | lia]. }
    unfold stop_after_attempt.
    destruct (Nat.leb_spec 5 n); [lia |].
    destruct (IH (S n) k v) as (H1 & H2 & H3); [| lia | lia |].
    { repeat split; [lia | exact Hv |].
      intros j Hj. apply Hprev. lia. }
    cbn [fst snd]. rewrite requests_attempt, backoffs_attempt, H1, H2, H3.
    repeat split; lia.
Qed.

Lemma retrying_exhausted fuel : forall n,
  (forall k, (n <= k <= 5)%nat -> create i text k = None) ->
  (1 <= n <= 5)%nat -> (fuel + n = 6)%nat ->
  let r := retrying release create jitter fuel n text i delay in
  r.1 = RetryError
  /\ requests r.2 = fuel
  /\ backoffs r.2 = (fuel - 1)%nat.
Proof.
  induction fuel as [|fuel IH]; intros n Hnone Hn Hf; [lia |].
  cbn zeta. rewrite retrying_step, Hnone by lia.
  unfold stop_after_attempt.
  destruct (Nat.leb_spec 5 n).
  - assert (fuel = 0)%nat as -> by lia. cbn. auto.
  - destruct (IH (S n)) as (H1 & H2 & H3); [| lia | lia |].
    { intros k Hk. apply Hnone. lia. }
    cbn [fst snd]. rewrite requests_attempt, backoffs_attempt, H1, H2, H3.
    repeat split; lia.
Qed.

End RetryFacts.

(** Claim C5 as it is worded: every wait is at least 1. With a release of
    [tenacity] before 9.0, a service that fails the first four requests and
    a random number of 1/2, the first backoff lasts half a second: it is
    drawn between 0 and 1, not between 1 and 20. *)
Lemma C5_wait_below_one_before_release_9_0 :
  (get_embedding_at_index Before_9_0 flaky_create sample_jitter "block" 0 0).1
  = Returned 0 [0%Q; 1%Q]
  /\ (exists seconds rest,
        waits (get_embedding_at_index Before_9_0 flaky_create sample_jitter
                 "block" 0 0).2 = seconds :: rest
        /\ (seconds == 1 # 2)%Q
        /\ ~ (1 <= seconds)%Q)
  /\ ~ Forall backoff_ok
         (get_embedding_at_index Before_9_0 flaky_create sample_jitter
            "block" 0 0).2.
Proof.
  split; [vm_compute; reflexivity |]. split.
  - eexists _, _. split; [vm_compute; reflexivity |].
    split; [vm_compute; reflexivity |].
    intros H. vm_compute in H. by apply H.
  - intros H. apply backoff_ok_waits in H.
    apply Forall_inv in H as [H _]. vm_compute in H. by apply H.
Qed.

(** C5, amended. A call of [get_embedding_at_index] sends at most five
    requests and comes to an end. It repeats a failed request until one is
    answered, and then returns that answer; when the fifth request fails as
    well, it raises instead of sending a sixth. After the first, second,
    third and fourth failure it backs off for [random.uniform(low, high)]
    seconds with [high] = 1, 2, 4 and 8, the doubling bound that never
    reaches the cap of 20, and with [low] = 1 from release 9.0 of
    [tenacity] on and 0 before; this is the double within 2^-49 of
    [low + (high - low) * r] for the random number [r] of the attempt. So
    every wait lies between [low] and 8, and between 1 and 20 from
    release 9.0 on. *)
Theorem C5_retry_policy :
  forall release create jitter text i delay,
    (forall k, (0 <= jitter i k <= 1)%Q) ->
    let r := get_embedding_at_index release create jitter text i delay in
    let low := lowest_wait release in
    (requests r.2 <= 5)%nat
    /\ r.1 <> Unfinished
    /\ waits r.2
       = take (requests r.2 - 1)
           [uniform low 1 (jitter i 1); uniform low 2 (jitter i 2);
            uniform low 4 (jitter i 3); uniform low 8 (jitter i 4)]
    /\ (forall high r',
          In high [1; 2; 4; 8]%Q -> (0 <= r' <= 1)%Q ->
          (Qabs (uniform low high r' - (low + (high - low) * r'))
           <= 2 ^ (-49))%Q)
    /\ Forall (fun seconds => (low <= seconds <= 8)%Q) (waits r.2)
    /\ (release = From_9_0 -> Forall backoff_ok r.2)
    /\ (forall k v,
          first_answer create text i 1 k v -> (k <= 5)%nat ->
          r.1 = Returned i v
          /\ requests r.2 = k
          /\ backoffs r.2 = (k - 1)%nat)
    /\ ((forall k, (1 <= k <= 5)%nat -> create i text k = None) ->
        r.1 = RetryError
        /\ requests r.2 = 5%nat
        /\ backoffs r.2 = 4%nat).
Proof.
  intros release create jitter text i delay Hj r low. subst r low.
  unfold get_embedding_at_index.
  pose proof (retrying_requests_le release create jitter text i delay 5 1)
    as Hle.
  pose proof (retrying_waits_in_window release create jitter text i delay 5 1
                Hj) as Hw.
  split; [exact Hle |].
  split; [apply retrying_finishes; lia |].
  split.
  { rewrite retrying_waits by lia. revert Hle.
    destruct (requests _) as [|[|[|[|[|[|m]]]]]]; intros Hle;
      [| | | | | | lia];
      cbn [Nat.sub seq map take firstn];
      rewrite ?(wait_random_exponential_window release 1 1 _ eq_refl),
        ?(wait_random_exponential_window release 2 2 _ eq_refl),
        ?(wait_random_exponential_window release 3 4 _ eq_refl),
        ?(wait_random_exponential_window release 4 8 _ eq_refl);
      reflexivity. }
  split; [apply uniform_near_window |].
  split; [exact Hw |].
  split.
  { intros ->. apply backoff_ok_waits.
    eapply Forall_impl; [exact Hw |]. cbn. intros seconds. lra. }
  split.
  - intros k v Hfirst Hk.
    destruct (retrying_success release create jitter text i delay 5 1 k v)
      as (H1 & H2 & H3); [assumption | lia | lia |].
    destruct Hfirst as [? _]. repeat split; [assumption | lia | lia].
  - intros Hnone.
    apply (retrying_exhausted release create jitter text i delay 5 1);
      [exact Hnone | lia | lia].
Qed.

Lemma C5_retry_policy_witness :
  (forall k, (0 <= sample_jitter 0 k <= 1)%Q)
  /\ let r :=
       get_embedding_at_index Before_9_0 flaky_create sample_jitter "block" 0
         0 in
     let low := lowest_wait Before_9_0 in
     (requests r.2 <= 5)%nat
     /\ r.1 <> Unfinished
     /\ waits r.2
        = take (requests r.2 - 1)
            [uniform low 1 (sample_jitter 0 1); uniform low 2 (sample_jitter 0 2);
             uniform low 4 (sample_jitter 0 3); uniform low 8 (sample_jitter 0 4)]
     /\ (forall high r',
           In high [1; 2; 4; 8]%Q -> (0 <= r' <= 1)%Q ->
           (Qabs (uniform low high r' - (low + (high - low) * r'))
            <= 2 ^ (-49))%Q)
     /\ Forall (fun seconds => (low <= seconds <= 8)%Q) (waits r.2)
     /\ (Before_9_0 = From_9_0 -> Forall backoff_ok r.2)
     /\ (forall k v,
           first_answer flaky_create "block" 0 1 k v -> (k <= 5)%nat ->
           r.1 = Returned 0 v
           /\ requests r.2 = k
           /\ backoffs r.2 = (k - 1)%nat)
     /\ ((forall k, (1 <= k <= 5)%nat -> flaky_create 0 "block" k = None) ->
         r.1 = RetryError
         /\ requests r.2 = 5%nat
         /\ backoffs r.2 = 4%nat).
Proof.
  assert (H : forall k, (0 <= sample_jitter 0 k <= 1)%Q).
  { intros k. split; vm_compute; discriminate. }
  split; [exact H |].
  exact (C5_retry_policy Before_9_0 flaky_create sample_jitter "block" 0 0%Q H).
Defined.

(** ** C2: the delay before a request *)

Lemma retrying_sleeps release create jitter text i delay fuel : forall n,
  Forall (sleeps_for delay) (retrying release create jitter fuel n text i delay).2.
Proof.
  induction fuel as [|fuel IH]; intros n; [constructor |].
  rewrite retrying_step. destruct (create i text n).
  { constructor; [reflexivity |]. constructor; [exact I | constructor]. }
  destruct (stop_after_attempt 5 n).
  { constructor; [reflexivity |]. constructor; [exact I | constructor]. }
  cbn [snd app]. constructor; [reflexivity |].
  do 2 (constructor; [exact I |]). apply IH.
Qed.

(** Every sleep of every worker of [get_embeddings] lasts zero seconds. *)
Lemma workers_do_not_sleep release create jitter d :
  Forall (Forall (sleeps_for 0%Q)) (worker_traces release create jitter d).
Proof.
  apply Forall_lookup. intros i trace.
  unfold worker_traces, submit_all.
  rewrite list_lookup_fmap, list_lookup_imap.
  destruct (embedding_strings d !! i) as [text|]; [| discriminate].
  cbn -[get_embedding_at_index]. intros [= <-].
  apply (retrying_sleeps release create jitter text i 0%Q 5 1).
Qed.

(** C2. With the default limit of 3500 requests per minute,
    [delay_in_seconds] is the double nearest to 60/3500 of a second,
    0.017142857142857144, yet the only worker of a dataset with one block
    sleeps for 0 seconds and then sends its request: line 205 submits
    [get_embedding_at_index] without a delay, so the parameter keeps its
    default 0. The same holds for every sleep of every worker of every
    dataset. *)
Theorem C2_requests_are_sent_without_delay :
  rate_limit_per_minute loaded_dataset = 3500%Z
  /\ (delay_in_seconds loaded_dataset
      == 4941092162600773 # 288230376151711744)%Q
  /\ (Qabs (delay_in_seconds loaded_dataset - 60 / 3500)
      <= 1 # 500000000000000000)%Q
  /\ embedding_strings loaded_dataset = ["Title: B: Hello world. Bye."]
  /\ (forall release,
        worker_traces release prompt_create sample_jitter loaded_dataset
        = [[Sleep 0; Request "Title: B: Hello world. Bye."]])
  /\ (0 < delay_in_seconds loaded_dataset)%Q
  /\ forall release create jitter d,
       Forall (Forall (sleeps_for 0%Q)) (worker_traces release create jitter d).
Proof.
  split; [reflexivity |]. split; [vm_compute; reflexivity |].
  split; [vm_compute; discriminate |].
  split; [reflexivity |]. split; [by intros [] |].
  split; [reflexivity |]. apply workers_do_not_sleep.
Qed.

(** ** C3 and C4: what the loop over the futures leaves in the matrix *)

(** A call returns its own index and an answer of the service. *)
Lemma retrying_returned release create jitter text i delay fuel : forall n j v,
  (retrying release create jitter fuel n text i delay).1 = Returned j v ->
  j = i /\ exists k, (n <= k < n + fuel)%nat /\ create i text k = Some v.
Proof.
  induction fuel as [|fuel IH]; intros n j v; [discriminate |].
  rewrite retrying_step. destruct (create i text n) as [e|] eqn:E.
  - cbn [fst]. intros [= <- <-].
    split; [reflexivity |]. exists n. split; [lia | exact E].
  - destruct (stop_after_attempt 5 n); [discriminate |].
    cbn [fst]. intros H. apply IH in H as [-> (k & Hk & Hv)].
    split; [reflexivity |]. exists k. split; [lia | exact Hv].
Qed.

Section CollectFacts.

Variable LEN_EMBEDDINGS : nat.
Variable futures : list call_result.

(** The future at position [j] was submitted with index [j]. *)
Hypothesis own_index :
  forall j i v, futures !! j = Some (Returned i v) -> i = j.

Lemma assign_row_Some m i v m' :
  assign_row LEN_EMBEDDINGS m i v = Some m' ->
  (i < length m)%nat
  /\ exists row,
       m' = <[i := row]> m /\ (length v = LEN_EMBEDDINGS -> row = v).
Proof.
  unfold assign_row. destruct (Nat.leb_spec (length m) i); [discriminate |].
  intros Hm. split; [assumption |]. revert Hm.
  destruct (Nat.eqb_spec (length v) LEN_EMBEDDINGS).
  - intros [= <-]. eauto.
  - destruct v as [|x [|? ?]]; try discriminate.
    intros [= <-]. eexists. split; [reflexivity | done].
Qed.

Lemma collect_length completed : forall m s m',
  collect LEN_EMBEDDINGS futures m completed = (s, m') ->
  length m' = length m.
Proof.
  induction completed as [|j rest IH]; intros m s m'; cbn [collect].
  - by intros [= <- <-].
  - destruct (futures !! j) as [[i v| |]|]; try by intros [= <- <-].
    + destruct (assign_row _ m i v) as [m1|] eqn:E; [| by intros [= <- <-]].
      intros H. apply IH in H as ->.
      apply assign_row_Some in E as (_ & row & -> & _).
      apply length_insert.
    + apply IH.
Qed.

(** A future that raised stops the loop, and its row is never written. *)
Lemma collect_raised completed : forall m i z,
  i ∈ completed ->
  futures !! i = Some RetryError ->
  m !! i = Some z ->
  exists m',
    collect LEN_EMBEDDINGS futures m completed = (Raised, m')
    /\ m' !! i = Some z.
Proof.
  induction completed as [|j rest IH]; intros m i z Hin Hi Hz.
  - by apply elem_of_nil in Hin.
  - cbn [collect]. destruct (futures !! j) as [[i' v| |]|] eqn:Ej; eauto.
    + apply own_index in Ej as Hj. subst i'.
      assert (j <> i) by congruence.
      apply elem_of_cons in Hin as [-> | Hin]; [done |].
      destruct (assign_row _ m j v) as [m1|] eqn:E; [| eauto].
      apply assign_row_Some in E as (_ & row & -> & _).
      apply IH; [assumption.. |].
      by rewrite list_lookup_insert_ne.
    + assert (j <> i) by congruence.
      apply elem_of_cons in Hin as [-> | Hin]; [done |].
      by apply IH.
Qed.

(** When the loop comes to its end, the row of every future that it went
    through holds that future's vector, and the other rows are as they
    were. *)
Lemma collect_completed completed : forall m m',
  NoDup completed ->
  (forall j i v, futures !! j = Some (Returned i v) ->
                 length v = LEN_EMBEDDINGS) ->
  collect LEN_EMBEDDINGS futures m completed = (Completed, m') ->
  (forall j, j ∈ completed -> is_Some (futures !! j) ->
             exists v, futures !! j = Some (Returned j v) /\ m' !! j = Some v)
  /\ (forall j, j ∉ completed -> m' !! j = m !! j).
Proof.
  induction completed as [|j rest IH]; intros m m' Hnd Hlen; cbn [collect].
  - intros [= <-]. split; [| done].
    intros j Hin. by apply elem_of_nil in Hin.
  - apply NoDup_cons in Hnd as [Hj Hnd].
    destruct (futures !! j) as [[i v| |]|] eqn:Ej; try discriminate.
    + apply own_index in Ej as Hi. subst i.
      destruct (assign_row _ m j v) as [m1|] eqn:E; [| discriminate].
      apply assign_row_Some in E as (Hlt & row & -> & Hrow).
      rewrite (Hrow (Hlen _ _ _ Ej)). clear Hrow row.
      intros H. destruct (IH _ _ Hnd Hlen H) as [Hin Hout]. split.
      * intros j' [-> | Hj']%elem_of_cons Hsome; [| by apply Hin].
        exists v. split; [exact Ej |].
        rewrite (Hout _ Hj). by apply list_lookup_insert_eq.
      * intros j' Hj'. apply not_elem_of_cons in Hj' as [Hne Hj'].
        rewrite (Hout _ Hj'). by apply list_lookup_insert_ne.
    + intros H. destruct (IH _ _ Hnd Hlen H) as [Hin Hout]. split.
      * intros j' [-> | Hj']%elem_of_cons Hsome; [| by apply Hin].
        rewrite Ej in Hsome. by destruct Hsome.
      * intros j' Hj'. apply not_elem_of_cons in Hj' as [Hne Hj'].
        by apply Hout.
Qed.

(** The loop comes to its end when every future has returned a vector of
    the row length. *)
Lemma collect_completes completed : forall m,
  (forall j, j ∈ completed ->
     (j < length m)%nat
     /\ exists v, futures !! j = Some (Returned j v)
                  /\ length v = LEN_EMBEDDINGS) ->
  exists m', collect LEN_EMBEDDINGS futures m completed = (Completed, m').
Proof.
  induction completed as [|j rest IH]; intros m H; cbn [collect]; [eauto |].
  destruct (H j) as (Hlt & v & -> & Hv); [by left |].
  unfold assign_row.
  destruct (Nat.leb_spec (length m) j); [lia |].
  rewrite Hv, Nat.eqb_refl. apply IH.
  intros j' Hj'. rewrite length_insert. apply H. by right.
Qed.

End CollectFacts.

Section EmbeddingFacts.

Variable LEN_EMBEDDINGS : nat.
Variable release : tenacity_release.
Variable create : nat -> string -> nat -> option (list Q).
Variable jitter : nat -> nat -> Q.

Lemma futures_lookup strings j :
  (fst <$> submit_all release create jitter strings) !! j
  = (fun text => (get_embedding_at_index release create jitter text j 0).1)
      <$> strings !! j.
Proof.
  unfold submit_all. rewrite list_lookup_fmap, list_lookup_imap.
  by destruct (strings !! j).
Qed.

Lemma futures_own_index strings j i v :
  (fst <$> submit_all release create jitter strings) !! j = Some (Returned i v) ->
  i = j.
Proof.
  rewrite futures_lookup. destruct (strings !! j) as [text|]; [| done].
  cbn -[get_embedding_at_index]. intros [= H].
  by apply retrying_returned in H as [-> _].
Qed.

Lemma zeros_lookup rows i :
  (i < rows)%nat ->
  zeros rows LEN_EMBEDDINGS !! i = Some (replicate LEN_EMBEDDINGS 0%Q).
Proof. intros H. by apply lookup_replicate_2. Qed.

Lemma zeros_length rows : length (zeros rows LEN_EMBEDDINGS) = rows.
Proof. apply length_replicate. Qed.

(** The run succeeds when the service answers every block within five
    requests with a vector of the row length. *)
Lemma get_embeddings_completes d completed :
  Permutation completed (seq 0 (length (embedding_strings d))) ->
  (forall i text k v, create i text k = Some v -> length v = LEN_EMBEDDINGS) ->
  (forall i text, embedding_strings d !! i = Some text ->
     exists k v, first_answer create text i 1 k v /\ (k <= 5)%nat) ->
  (get_embeddings LEN_EMBEDDINGS release create jitter d completed).1 = Completed.
Proof.
  intros Hperm Hlen Hans. unfold get_embeddings.
  destruct (collect_completes LEN_EMBEDDINGS
              (fst <$> submit_all release create jitter (embedding_strings d))
              completed
              (zeros (length (embedding_strings d)) LEN_EMBEDDINGS))
    as [m' ->]; [| reflexivity].
  intros j Hj. rewrite Hperm in Hj. apply elem_of_seq in Hj as [_ Hj].
  rewrite zeros_length. split; [lia |].
  destruct (lookup_lt_is_Some_2 (embedding_strings d) j) as [text Ht];
    [lia |].
  destruct (Hans j text Ht) as (k & v & Hfirst & Hk).
  exists v. rewrite futures_lookup, Ht. cbn -[get_embedding_at_index].
  destruct (retrying_success release create jitter text j 0%Q 5 1 k v)
    as (H1 & _); [assumption | lia | lia |].
  unfold get_embedding_at_index. rewrite H1.
  destruct Hfirst as (_ & Hv & _). eauto.
Qed.

End EmbeddingFacts.

(** C4. When [get_embeddings] comes to its end, in whatever order the
    futures completed, the matrix has one row per block text, and row [i] is
    the vector that the call for block [i] returned: an answer of the
    service to a request sent with the text at index [i]. The service is
    taken to answer with vectors of [LEN_EMBEDDINGS] entries. *)
Theorem C4_embeddings_are_index_aligned :
  forall LEN_EMBEDDINGS release create jitter d completed d',
    Permutation completed (seq 0 (length (embedding_strings d))) ->
    (forall i text k v, create i text k = Some v -> length v = LEN_EMBEDDINGS) ->
    get_embeddings LEN_EMBEDDINGS release create jitter d completed = (Completed, d') ->
    exists m,
      embeddings d' = Some m
      /\ length m = length (embedding_strings d)
      /\ forall i text,
           embedding_strings d !! i = Some text ->
           exists v k,
             m !! i = Some v
             /\ (get_embedding_at_index release create jitter text i 0).1 = Returned i v
             /\ (1 <= k <= 5)%nat
             /\ create i text k = Some v.
Proof.
  intros LEN release create jitter d completed d' Hperm Hlen.
  unfold get_embeddings.
  destruct (collect _ _ _ _) as [s m'] eqn:Ec. intros [= -> <-].
  exists m'. split; [reflexivity |].
  pose proof (collect_length _ _ _ _ _ _ Ec) as Hl.
  rewrite zeros_length in Hl. split; [exact Hl |].
  apply collect_completed in Ec as [Hin _].
  - intros i text Ht.
    destruct (Hin i) as (v & Hf & Hm).
    { rewrite Hperm. apply elem_of_seq. apply lookup_lt_Some in Ht. lia. }
    { rewrite futures_lookup, Ht. by eexists. }
    rewrite futures_lookup, Ht in Hf. cbn -[get_embedding_at_index] in Hf.
    injection Hf as Hf.
    destruct (retrying_returned _ _ _ _ _ _ _ _ _ _ Hf) as (_ & k & Hk & Hv).
    exists v, k. repeat split; [assumption.. | lia | lia | assumption].
  - apply futures_own_index.
  - rewrite Hperm. apply NoDup_seq.
  - intros j i v. rewrite futures_lookup.
    destruct (embedding_strings d !! j) as [text|]; [| done].
    cbn -[get_embedding_at_index]. intros [= Hf].
    apply retrying_returned in Hf as (_ & k & _ & Hv). by eapply Hlen.
Qed.

Lemma flaky_create_length i text k v :
  flaky_create i text k = Some v -> length v = 2%nat.
Proof.
  unfold flaky_create. destruct (k <? 5)%nat; [discriminate |].
  by intros [= <-].
Qed.

Lemma C4_embeddings_are_index_aligned_witness :
  let d' := set_embeddings [[0%Q; 1%Q]; [1%Q; 1%Q]] two_block_dataset in
  Permutation [1; 0]%nat (seq 0 (length (embedding_strings two_block_dataset)))
  /\ (forall i text k v, flaky_create i text k = Some v -> length v = 2%nat)
  /\ get_embeddings 2 From_9_0 flaky_create sample_jitter two_block_dataset [1; 0]%nat
     = (Completed, d')
  /\ exists m,
       embeddings d' = Some m
       /\ length m = length (embedding_strings two_block_dataset)
       /\ forall i text,
            embedding_strings two_block_dataset !! i = Some text ->
            exists v k,
              m !! i = Some v
              /\ (get_embedding_at_index From_9_0 flaky_create sample_jitter text i 0).1
                 = Returned i v
              /\ (1 <= k <= 5)%nat
              /\ flaky_create i text k = Some v.
Proof.
  intros d'.
  assert (Hperm : Permutation [1; 0]%nat
                    (seq 0 (length (embedding_strings two_block_dataset))))
    by (simpl; apply perm_swap).
  assert (Hrun : get_embeddings 2 From_9_0 flaky_create sample_jitter two_block_dataset
                   [1; 0]%nat = (Completed, d'))
    by (vm_compute; reflexivity).
  split; [exact Hperm |].
  split; [exact flaky_create_length |].
  split; [exact Hrun |].
  exact (C4_embeddings_are_index_aligned 2 From_9_0 flaky_create sample_jitter
           two_block_dataset [1; 0]%nat d' Hperm flaky_create_length Hrun).
Defined.

(** Claim C3 as it is worded: after a block has failed all its attempts, no
    block without an embedding is left with a zero vector. On a dataset with
    one block and a service that never answers, the call for block 0 raises
    after five requests, [get_embeddings] raises, and the [embeddings]
    attribute that line 202 assigned is left holding the zero row for
    block 0. *)
Lemma C3_failed_block_is_left_with_zeros :
  embedding_strings loaded_dataset = ["Title: B: Hello world. Bye."]
  /\ (forall release,
        (get_embedding_at_index release dead_create sample_jitter
           "Title: B: Hello world. Bye." 0 0).1 = RetryError)
  /\ (forall release,
        get_embeddings 2 release dead_create sample_jitter loaded_dataset
          [0%nat]
        = (Raised, set_embeddings [[0%Q; 0%Q]] loaded_dataset))
  /\ embeddings (set_embeddings [[0%Q; 0%Q]] loaded_dataset)
     = Some [[0%Q; 0%Q]].
Proof.
  split; [reflexivity |]. split; [by intros [] |].
  split; [intros []; vm_compute; reflexivity |]. reflexivity.
Qed.

(** C3, amended. If the request of a block fails all five attempts, then
    [get_embeddings] raises, in whatever order the futures complete; the
    matrix that it leaves in the [embeddings] attribute has one row per
    block, and the row of the failed block is still the zero vector of the
    allocation. *)
Theorem C3_failed_block_fails_the_run :
  forall LEN_EMBEDDINGS release create jitter d completed i text,
    Permutation completed (seq 0 (length (embedding_strings d))) ->
    embedding_strings d !! i = Some text ->
    (forall k, (1 <= k <= 5)%nat -> create i text k = None) ->
    exists m,
      get_embeddings LEN_EMBEDDINGS release create jitter d completed
      = (Raised, set_embeddings m d)
      /\ length m = length (embedding_strings d)
      /\ m !! i = Some (replicate LEN_EMBEDDINGS 0%Q).
Proof.
  intros LEN release create jitter d completed i text Hperm Ht Hnone.
  pose proof (lookup_lt_Some _ _ _ Ht) as Hlt.
  destruct (collect_raised LEN
              (fst <$> submit_all release create jitter (embedding_strings d))
              (futures_own_index release create jitter (embedding_strings d))
              completed
              (zeros (length (embedding_strings d)) LEN) i
              (replicate LEN 0%Q))
    as (m & Hc & Hm).
  - rewrite Hperm. apply elem_of_seq. lia.
  - rewrite futures_lookup, Ht. cbn -[get_embedding_at_index].
    destruct (retrying_exhausted release create jitter text i 0%Q 5 1)
      as (H1 & _); [assumption | lia | lia |].
    unfold get_embedding_at_index. by rewrite H1.
  - by apply zeros_lookup.
  - exists m. unfold get_embeddings. rewrite Hc.
    split; [reflexivity |]. split; [| exact Hm].
    apply collect_length in Hc. by rewrite zeros_length in Hc.
Qed.

Lemma C3_failed_block_fails_the_run_witness :
  Permutation [0%nat] (seq 0 (length (embedding_strings loaded_dataset)))
  /\ embedding_strings loaded_dataset !! 0%nat
     = Some "Title: B: Hello world. Bye."
  /\ (forall k, (1 <= k <= 5)%nat ->
        dead_create 0 "Title: B: Hello world. Bye." k = None)
  /\ exists m,
       get_embeddings 2 From_9_0 dead_create sample_jitter loaded_dataset [0%nat]
       = (Raised, set_embeddings m loaded_dataset)
       /\ length m = length (embedding_strings loaded_dataset)
       /\ m !! 0%nat = Some (replicate 2 0%Q).
Proof.
  assert (Hperm : Permutation [0%nat]
                    (seq 0 (length (embedding_strings loaded_dataset))))
    by (simpl; reflexivity).
  assert (Ht : embedding_strings loaded_dataset !! 0%nat
               = Some "Title: B: Hello world. Bye.") by reflexivity.
  assert (Hnone : forall k, (1 <= k <= 5)%nat ->
                    dead_create 0 "Title: B: Hello world. Bye." k = None)
    by reflexivity.
  split; [exact Hperm |]. split; [exact Ht |]. split; [exact Hnone |].
  exact (C3_failed_block_fails_the_run 2 From_9_0 dead_create sample_jitter
           loaded_dataset [0%nat] 0%nat "Title: B: Hello world. Bye."
           Hperm Ht Hnone).
Defined.

(** ** C8: saving and loading the matrix *)

(** Claim C8 as it is worded, for the path "embeddings": [np.save] writes
    the file "embeddings.npy", and [np.load] then looks for a file named
    "embeddings", which does not exist. *)
Lemma C8_load_misses_file_without_extension :
  exists fs,
    save_embeddings stored_dataset "embeddings" ∅ = Ok fs
    /\ fs !! "embeddings.npy" = Some [[0%Q; 1%Q]; [1%Q; 1%Q]]
    /\ fs !! "embeddings" = None
    /\ load_embeddings stored_dataset "embeddings" fs = Uncaught.
Proof.
  eexists. split; [reflexivity |].
  split; [vm_compute; reflexivity |].
  split; vm_compute; reflexivity.
Qed.

(** C8, amended. For every dataset that holds a matrix and every path that
    ends in ".npy", saving to the path and then loading from the same path,
    into the same or another object, yields the same matrix: the same number
    of vectors and the same values. *)
Theorem C8_load_after_save :
  forall d d0 path fs m,
    endswith path ".npy" = true ->
    embeddings d = Some m ->
    exists fs' d',
      save_embeddings d path fs = Ok fs'
      /\ load_embeddings d0 path fs' = Ok d'
      /\ embeddings d' = embeddings d
      /\ d' = set_embeddings m d0.
Proof.
  intros d d0 path fs m Hext Hm.
  unfold save_embeddings, load_embeddings, np_save, np_load.
  rewrite Hm, Hext. eexists _, _. split; [reflexivity |].
  rewrite lookup_insert_eq. cbn. repeat split.
Qed.

Lemma C8_load_after_save_witness :
  endswith "embeddings.npy" ".npy" = true
  /\ embeddings stored_dataset = Some [[0%Q; 1%Q]; [1%Q; 1%Q]]
  /\ exists fs' d',
       save_embeddings stored_dataset "embeddings.npy" ∅ = Ok fs'
       /\ load_embeddings two_block_dataset "embeddings.npy" fs' = Ok d'
       /\ embeddings d' = embeddings stored_dataset
       /\ d' = set_embeddings [[0%Q; 1%Q]; [1%Q; 1%Q]] two_block_dataset.
Proof.
  split; [reflexivity |]. split; [reflexivity |].
  apply (C8_load_after_save stored_dataset two_block_dataset "embeddings.npy"
           ∅ [[0%Q; 1%Q]; [1%Q; 1%Q]]); reflexivity.
Defined.

(** * Further properties of the loader and of the embedding run *)

(** ** The source of a record *)

Lemma resolve_source_cases :
  forall entry : dict,
    match resolve_source entry with
    | Ok (Some entry') =>
        has "source" entry' = true
        /\ (if has "source" entry then entry' = entry
            else exists name,
                   In name fallback_sources
                   /\ entry' = dict_set "source" (JStr name) entry)
    | Ok None =>
        has "source" entry = false
        /\ has "question" entry = true /\ has "answer" entry = true
    | Missing reason =>
        reason = "Entry has no source." /\ has "source" entry = false
    | Uncaught =>
        has "source" entry = false /\ has "url" entry = true
        /\ py_take 24 entry.["url"] = Uncaught
    end.
Proof.
  intros entry. unfold resolve_source.
  destruct (has "source" entry) eqn:Hs; cbn [negb]; [auto |].
  destruct (has "url" entry && py_eq_str _ "https://www.cold-takes.com/").
  { split; [reflexivity |]. exists "Cold Takes". cbn. auto. }
  destruct (has "question" entry && has "answer" entry) eqn:Hqa.
  { apply andb_prop in Hqa as [-> ->]. auto. }
  destruct (has "article_url" entry && _).
  { split; [reflexivity |]. exists "gwern.net". cbn. auto. }
  destruct (has "url" entry && _).
  { split; [reflexivity |]. exists "generative.ink". cbn. auto. }
  destruct (has "url" entry) eqn:Hu; [| auto].
  destruct (py_take 24 entry.["url"]) as [prefix| |] eqn:Ht; cbn [bind].
  - destruct (py_eq_str prefix _); [| auto].
    split; [reflexivity |]. exists "greaterwrong.com". cbn. auto 6.
  - destruct (entry.["url"]); discriminate.
  - auto.
Qed.

(** X1. The fallback rules either keep a record that has a source as it is,
    or give a record without one a source among "Cold Takes", "gwern.net",
    "generative.ink" and "greaterwrong.com" and change nothing else, or skip
    it as a printout, or reject it with "Entry has no source."; they raise
    something else only when the [url] of a record without source cannot be
    sliced. A record that goes on always has a source. *)
Theorem X1_resolve_source_outcomes :
  forall entry : dict,
    match resolve_source entry with
    | Ok (Some entry') =>
        has "source" entry' = true
        /\ (if has "source" entry then entry' = entry
            else exists name,
                   In name fallback_sources
                   /\ entry' = dict_set "source" (JStr name) entry)
    | Ok None =>
        has "source" entry = false
        /\ has "question" entry = true /\ has "answer" entry = true
    | Missing reason =>
        reason = "Entry has no source." /\ has "source" entry = false
    | Uncaught =>
        has "source" entry = false /\ has "url" entry = true
        /\ py_take 24 entry.["url"] = Uncaught
    end.
Proof.
  intros entry. unfold resolve_source.
  destruct (has "source" entry) eqn:Hs; cbn [negb]; [auto |].
  destruct (has "url" entry && py_eq_str _ "https://www.cold-takes.com/").
  { split; [reflexivity |]. exists "Cold Takes". cbn. auto. }
  destruct (has "question" entry && has "answer" entry) eqn:Hqa.
  { apply andb_prop in Hqa as [-> ->]. auto. }
  destruct (has "article_url" entry && _).
  { split; [reflexivity |]. exists "gwern.net". cbn. auto. }
  destruct (has "url" entry && _).
  { split; [reflexivity |]. exists "generative.ink". cbn. auto. }
  destruct (has "url" entry) eqn:Hu; [| auto].
  destruct (py_take 24 entry.["url"]) as [prefix| |] eqn:Ht; cbn [bind].
  - destruct (py_eq_str prefix _); [| auto].
    split; [reflexivity |]. exists "greaterwrong.com". cbn. auto 6.
  - destruct (entry.["url"]); discriminate.
  - auto.
Qed.

(** ** The extracted tuple *)

Lemma strip_newline_not_Missing v reason : strip_newline v <> Missing reason.
Proof.
  unfold strip_newline.
  destruct v as [| | |s|l|]; cbn; try discriminate.
  - destruct (String.length s); cbn; [discriminate |].
    destruct (String.eqb _ _); discriminate.
  - destruct (last l) as [x|]; cbn; [| discriminate].
    destruct (py_eq_str x newline); discriminate.
Qed.

Lemma get_title_not_Missing a reason : get_title a <> Missing reason.
Proof.
  unfold get_title.
  repeat match goal with
         | |- context [if ?c then _ else _] => destruct c
         end;
    first [apply strip_newline_not_Missing | discriminate].
Qed.

Lemma py_len_not_Missing v reason : py_len v <> Missing reason.
Proof. destruct v; discriminate. Qed.

Lemma py_take_not_Missing n v reason : py_take n v <> Missing reason.
Proof. destruct v; discriminate. Qed.

Lemma long_enough_not_Missing k n a reason :
  long_enough k n a <> Missing reason.
Proof.
  unfold long_enough. destruct (has k a && truthy a.[k]); [| discriminate].
  destruct (py_len a.[k]) eqn:E; cbn; try discriminate.
  by apply py_len_not_Missing in E.
Qed.

Lemma get_date_published_not_Missing a reason :
  get_date_published a <> Missing reason.
Proof.
  unfold get_date_published.
  destruct (long_enough "date_published" 10 a) as [[|]| |] eqn:E1; cbn;
    [apply py_take_not_Missing | | by apply long_enough_not_Missing in E1
     | discriminate].
  destruct (long_enough "published" 16 a) as [[|]| |] eqn:E2; cbn;
    [apply py_take_not_Missing | discriminate
     | by apply long_enough_not_Missing in E2 | discriminate].
Qed.

Lemma mapM_py_term_not_Missing vals reason :
  mapM py_term vals <> Missing reason.
Proof.
  induction vals as [|val vals IH]; cbn; [discriminate |].
  destruct val as [| | | | |o]; cbn; try discriminate.
  destruct (has "term" o); cbn; [| discriminate].
  destruct (mapM py_term vals); cbn; [discriminate | | discriminate].
  intros [= ->]. by apply IH.
Qed.

Lemma py_join_not_Missing sep vals reason : py_join sep vals <> Missing reason.
Proof.
  induction vals as [|val vals IH]; cbn; [discriminate |].
  destruct val; try discriminate.
  destruct vals as [|val' vals']; [discriminate |].
  destruct (py_join sep (val' :: vals')) eqn:E; cbn; try discriminate.
  intros [= ->]. by apply IH.
Qed.

Lemma get_tags_not_Missing a reason : get_tags a <> Missing reason.
Proof.
  unfold get_tags. destruct (has "tags" a && truthy a.["tags"]); [| discriminate].
  destruct (a.["tags"]) as [| | | |vals|]; try discriminate.
  destruct (mapM py_term vals) as [terms| |] eqn:E; cbn;
    [| by apply mapM_py_term_not_Missing in E | discriminate].
  destruct (py_join ", " terms) eqn:E'; cbn; try discriminate.
  by apply py_join_not_Missing in E'.
Qed.

Lemma extract_info_cases :
  forall article : dict,
    match extract_info_from_article article with
    | Ok info =>
        has "text" article = true
        /\ truthy article.["text"] = true
        /\ info_text info = article.["text"]
        /\ get_title article = Ok (info_title info)
        /\ info_author info = get_author article
        /\ get_date_published article = Ok (info_date_published info)
        /\ info_url info = get_url article
        /\ get_tags article = Ok (info_tags info)
    | Missing reason =>
        reason = "Entry has no text."
        /\ has "text" article && truthy article.["text"] = false
        /\ (exists title, get_title article = Ok title)
        /\ (exists date_published,
              get_date_published article = Ok date_published)
        /\ (exists tags, get_tags article = Ok tags)
    | Uncaught =>
        get_title article = Uncaught
        \/ get_date_published article = Uncaught
        \/ get_tags article = Uncaught
    end.
Proof.
  intros article. unfold extract_info_from_article.
  destruct (get_title article) as [title| |] eqn:Et; cbn [bind];
    [| by apply get_title_not_Missing in Et | auto].
  destruct (get_date_published article) as [date| |] eqn:Ed; cbn [bind];
    [| by apply get_date_published_not_Missing in Ed | auto].
  destruct (get_tags article) as [tags| |] eqn:Eg; cbn [bind];
    [| by apply get_tags_not_Missing in Eg | auto].
  unfold get_text.
  destruct (has "text" article && truthy article.["text"]) eqn:Ex;
    cbn [bind]; [| eauto 10].
  apply andb_prop in Ex as [-> ->]. cbn. auto 10.
Qed.

(** X2. [extract_info_from_article] returns a tuple only for a record with
    a non-empty [text], which it stores unchanged; it rejects a record only
    with "Entry has no text.", and only a record whose [text] is missing or
    empty and whose title, date and tags have been computed without an
    exception; any other exception comes from the title, the date or the
    tags. *)
Theorem X2_extraction_outcomes :
  forall article : dict,
    match extract_info_from_article article with
    | Ok info =>
        has "text" article = true
        /\ truthy article.["text"] = true
        /\ info_text info = article.["text"]
        /\ get_title article = Ok (info_title info)
        /\ info_author info = get_author article
        /\ get_date_published article = Ok (info_date_published info)
        /\ info_url info = get_url article
        /\ get_tags article = Ok (info_tags info)
    | Missing reason =>
        reason = "Entry has no text."
        /\ has "text" article && truthy article.["text"] = false
        /\ (exists title, get_title article = Ok title)
        /\ (exists date_published,
              get_date_published article = Ok date_published)
        /\ (exists tags, get_tags article = Ok tags)
    | Uncaught =>
        get_title article = Uncaught
        \/ get_date_published article = Uncaught
        \/ get_tags article = Uncaught
    end.
Proof.
  intros article. unfold extract_info_from_article.
  destruct (get_title article) as [title| |] eqn:Et; cbn [bind];
    [| by apply get_title_not_Missing in Et | auto].
  destruct (get_date_published article) as [date| |] eqn:Ed; cbn [bind];
    [| by apply get_date_published_not_Missing in Ed | auto].
  destruct (get_tags article) as [tags| |] eqn:Eg; cbn [bind];
    [| by apply get_tags_not_Missing in Eg | auto].
  unfold get_text.
  destruct (has "text" article && truthy article.["text"]) eqn:Ex;
    cbn [bind]; [| eauto 10].
  apply andb_prop in Ex as [-> ->]. cbn. auto 10.
Qed.

(** ** One record, and the loop over the records *)

Section PassFacts.

Variable split : Z -> Z -> string -> string -> list string.
Variable sentences : string -> list string.
Variable repr : json -> string.
Variable random : nat -> Q.

(** Whatever the record, the body of the [try] statement ends in one of six
    ways. *)
Lemma process_entry_effect w entry :
  entry_effect split sentences repr w
    (process_entry split sentences repr random w entry).
Proof.
  unfold process_entry.
  pose proof (resolve_source_cases entry) as Hr.
  destruct (resolve_source entry) as [[entry'|]|reason|];
    [| constructor | destruct Hr as [-> _]; constructor | constructor].
  cbn zeta. cbn [self error_count_dict draws].
  destruct (negb (Qle_bool _ _)); [apply effect_passed_over |].
  destruct (match custom_sources (self w) with
            | Some sources => _
            | None => false
            end) eqn:Ef; [apply effect_passed_over |].
  assert (Ha : source_allowed (self w) entry'.["source"]).
  { unfold source_allowed. destruct (custom_sources (self w)); [| done].
    by apply negb_false_iff in Ef. }
  destruct (hashable entry'.["source"]) eqn:Eh; cbn [negb]; [| constructor].
  pose proof (extract_info_cases entry') as Hx.
  destruct (extract_info_from_article entry') as [info|reason|];
    [| destruct Hx as [-> _]; by apply effect_no_text | constructor].
  destruct Hx as (_ & Ht & Hi & _). rewrite <- Hi in Ht.
  destruct (info_text info) as [| | |text| |] eqn:Etext; try constructor.
  assert (Hb : blocks_of split repr (self w) info
               = split (min_tokens_per_block (self w))
                   (max_tokens_per_block (self w)) text
                   (make_signature repr info)).
  { unfold blocks_of. by rewrite Etext. }
  cbn [count_article min_tokens_per_block max_tokens_per_block].
  rewrite <- Hb.
  apply (effect_added split sentences repr w entry'.["source"] info text);
    [done.. |].
  intros ->. discriminate.
Qed.

(** A relation between states that every way of ending a record respects,
    and that is reflexive and transitive, holds between the start and the
    end of a pass. *)
Lemma pass_relation (R : world -> world -> Prop) :
  (forall w, R w w) ->
  (forall w1 w2 w3, R w1 w2 -> R w2 w3 -> R w1 w3) ->
  (forall w f w',
     entry_effect split sentences repr w f -> after f = Some w' -> R w w') ->
  forall reader w w',
    get_alignment_texts split sentences repr random w reader = Some w' ->
    R w w'.
Proof.
  intros Hrefl Htrans Hstep reader.
  induction reader as [|entry rest IH]; intros w w'; cbn [get_alignment_texts].
  - intros [= <-]. apply Hrefl.
  - pose proof (process_entry_effect w entry) as He.
    destruct (process_entry _ _ _ _ w entry) as [w1|reason w1|] eqn:Ep;
      [| | discriminate]; intros Hrest.
    + apply Htrans with w1; [by apply (Hstep w _ w1 He) | by apply IH].
    + apply Htrans with (handler reason w1);
        [by apply (Hstep w _ _ He) | by apply IH].
Qed.

End PassFacts.

Lemma chars_of_app l1 l2 : chars_of (l1 ++ l2)%list = chars_of l1 + chars_of l2.
Proof.
  unfold chars_of. induction l1 as [|x l1 IH]; cbn [foldr app]; [done |].
  rewrite IH. lia.
Qed.

Lemma words_of_app l1 l2 : words_of (l1 ++ l2)%list = words_of l1 + words_of l2.
Proof.
  unfold words_of. induction l1 as [|x l1 IH]; cbn [foldr app]; [done |].
  rewrite IH. lia.
Qed.

Lemma sentences_of_app sentences l1 l2 :
  sentences_of sentences (l1 ++ l2)%list
  = sentences_of sentences l1 + sentences_of sentences l2.
Proof.
  unfold sentences_of. induction l1 as [|x l1 IH]; cbn [foldr app]; [done |].
  rewrite IH. lia.
Qed.

Lemma blocks_of_same_bounds split repr d d' info :
  min_tokens_per_block d' = min_tokens_per_block d ->
  max_tokens_per_block d' = max_tokens_per_block d ->
  blocks_of split repr d' info = blocks_of split repr d info.
Proof. unfold blocks_of. by intros -> ->. Qed.

Lemma flat_map_blocks_same_bounds split repr d d' infos :
  min_tokens_per_block d' = min_tokens_per_block d ->
  max_tokens_per_block d' = max_tokens_per_block d ->
  flat_map (blocks_of split repr d') infos
  = flat_map (blocks_of split repr d) infos.
Proof.
  intros Hmin Hmax. induction infos as [|info infos IH]; cbn; [done |].
  by rewrite IH, (blocks_of_same_bounds _ _ d d').
Qed.

(** The fields that [appended] speaks of. *)
Lemma appended_nil split sentences repr w w' :
  metadata (self w') = metadata (self w) ->
  embedding_strings (self w') = embedding_strings (self w) ->
  total_char_count (self w') = total_char_count (self w) ->
  total_word_count (self w') = total_word_count (self w) ->
  total_sentence_count (self w') = total_sentence_count (self w) ->
  total_block_count (self w') = total_block_count (self w) ->
  min_tokens_per_block (self w') = min_tokens_per_block (self w) ->
  max_tokens_per_block (self w') = max_tokens_per_block (self w) ->
  appended split sentences repr w w' [].
Proof.
  intros Hm Hs Hc Hw Hn Hb Hmin Hmax. unfold appended.
  rewrite Hm, Hs, Hc, Hw, Hn, Hb, Hmin, Hmax. cbn.
  rewrite !app_nil_r, !Nat.add_0_r. repeat split; constructor.
Qed.

Lemma appended_trans split sentences repr w1 w2 w3 new new' :
  appended split sentences repr w1 w2 new ->
  appended split sentences repr w2 w3 new' ->
  appended split sentences repr w1 w3 (new ++ new')%list.
Proof.
  unfold appended.
  intros (Hm & Hs & Hf & Hc & Hw & Hn & Hb & Hmin & Hmax)
         (Hm' & Hs' & Hf' & Hc' & Hw' & Hn' & Hb' & Hmin' & Hmax').
  rewrite (flat_map_blocks_same_bounds _ _ (self w1) (self w2)) in Hs', Hb'
    by assumption.
  rewrite Hm', Hm, Hs', Hs, Hc', Hc, Hw', Hw, Hn', Hn, Hb', Hb, Hmin', Hmax'.
  rewrite flat_map_app, length_app, chars_of_app, words_of_app,
    sentences_of_app, <- !app_assoc.
  repeat split; try done; try lia.
  by apply Forall_app.
Qed.

Section PassTotals.

Variable split : Z -> Z -> string -> string -> list string.
Variable sentences : string -> list string.
Variable repr : json -> string.
Variable random : nat -> Q.

(** What the body of the [try] statement adds for a record, and where it
    leaves the count of random numbers for the records that follow. *)
Lemma process_entry_stored w entry rest w1 :
  after (process_entry split sentences repr random w entry) = Some w1 ->
  exists new,
    appended split sentences repr w w1 new
    /\ stored_by random w (entry :: rest)
       = (new ++ stored_by random w1 rest)%list.
Proof.
  unfold stored_by. cbn [stored]. unfold process_entry.
  destruct (resolve_source entry) as [[entry'|]|reason|]; cbn [after];
    [| intros [= <-]; exists []; split; [by apply appended_nil | done]
     | intros [= <-]; exists []; split; [by apply appended_nil | done]
     | discriminate].
  cbn zeta. cbn [self error_count_dict draws]. rewrite Nat.add_1_r.
  set (wanted := match custom_sources (self w) with
                 | Some sources => existsb (py_eq_str entry'.["source"]) sources
                 | None => true
                 end).
  assert (Hw : match custom_sources (self w) with
               | Some sources =>
                   negb (existsb (py_eq_str entry'.["source"]) sources)
               | None => false
               end = negb wanted).
  { unfold wanted. by destruct (custom_sources (self w)). }
  rewrite Hw. clear Hw.
  pose proof (extract_info_cases entry') as Hx.
  destruct (Qle_bool (random (draws w)) (fraction_of_articles_to_use (self w)));
    cbn [negb andb].
  - destruct wanted; cbn [negb].
    + destruct (hashable entry'.["source"]); cbn [negb]; [| discriminate].
      destruct (extract_info_from_article entry') as [info|reason|];
        cbn [after]; [| | discriminate].
      * destruct Hx as (_ & Ht & Hi & _). rewrite <- Hi in Ht.
        destruct (info_text info) as [| | |text| |] eqn:Etext;
          cbn [after]; try discriminate.
        intros [= <-]. exists [info]. split; [| done].
        unfold appended, chars_of, words_of, sentences_of, text_of, blocks_of.
        cbn. rewrite Etext, app_nil_r.
        repeat split; try done; try lia.
        repeat constructor. exists text. split; [done |].
        intros ->. discriminate.
      * intros [= <-]. exists []. split; [by apply appended_nil | done].
    + intros [= <-]. exists []. split; [by apply appended_nil |].
      cbn [app self draws fraction_of_articles_to_use custom_sources].
      by destruct (extract_info_from_article entry').
  - intros [= <-]. exists []. split; [by apply appended_nil |].
    cbn [app self draws fraction_of_articles_to_use custom_sources].
    by destruct (extract_info_from_article entry').
Qed.

(** What a pass that comes to its end has added. *)
Lemma pass_appended reader : forall w w',
  get_alignment_texts split sentences repr random w reader = Some w' ->
  appended split sentences repr w w' (stored_by random w reader).
Proof.
  induction reader as [|entry rest IH]; intros w w'; cbn [get_alignment_texts].
  - intros [= <-]. by apply appended_nil.
  - pose proof (process_entry_stored w entry rest) as Hs.
    destruct (process_entry split sentences repr random w entry)
      as [w1|reason w1|]; [| | discriminate]; cbn [after] in Hs; intros Hrest.
    + destruct (Hs _ eq_refl) as (new & Ha & ->).
      eapply appended_trans; [exact Ha | by apply IH].
    + destruct (Hs _ eq_refl) as (new & Ha & ->).
      eapply appended_trans; [exact Ha | by apply IH].
Qed.

End PassTotals.

(** X3. When a pass comes to its end, the metadata list is the one before
    the pass followed by the tuples of the records it accepted, in the order
    of the file: the records that lines 137 to 148 leave with a source,
    whose random number does not exceed the fraction, whose source passes
    the filter and whose tuple is extracted. Each of these tuples has a
    non-empty string as text, and the list of block texts is the one before
    the pass followed by the splitter's blocks for these tuples, in the same
    order; nothing is removed or reordered, also when the object had been
    filled by an earlier pass. *)
Theorem X3_blocks_follow_metadata :
  forall split sentences repr random reader w w',
    get_alignment_texts split sentences repr random w reader = Some w' ->
    let new := stored_by random w reader in
    metadata (self w') = (metadata (self w) ++ new)%list
    /\ embedding_strings (self w')
       = (embedding_strings (self w)
          ++ flat_map (blocks_of split repr (self w)) new)%list
    /\ Forall (fun info =>
                 exists text, info_text info = JStr text /\ text <> "") new.
Proof.
  intros split sentences repr random reader w w' H new.
  destruct (pass_appended _ _ _ _ _ _ _ H) as (Hm & Hs & Hf & _).
  auto.
Qed.

(** [str.split()] also splits at the no-break space and at the next-line
    character. *)
Lemma py_split_one_byte_spaces :
  py_split ("a" +:+ String (Ascii.ascii_of_nat 160) "b c"
            +:+ String (Ascii.ascii_of_nat 133) "d")
  = ["a"; "b"; "c"; "d"].
Proof. vm_compute. reflexivity. Qed.

(** X4. When a pass comes to its end, the running totals have grown by what
    the records it accepted hold: [total_char_count] by the characters of
    their texts, [total_word_count] by their words, [total_sentence_count]
    by their sentences, and [total_block_count] by as many blocks as
    [embedding_strings] has gained. *)
Theorem X4_totals_follow_metadata :
  forall split sentences repr random reader w w',
    get_alignment_texts split sentences repr random w reader = Some w' ->
    let new := stored_by random w reader in
    metadata (self w') = (metadata (self w) ++ new)%list
    /\ total_char_count (self w') = total_char_count (self w) + chars_of new
    /\ total_word_count (self w') = total_word_count (self w) + words_of new
    /\ total_sentence_count (self w')
       = total_sentence_count (self w) + sentences_of sentences new
    /\ total_block_count (self w') + length (embedding_strings (self w))
       = total_block_count (self w) + length (embedding_strings (self w')).
Proof.
  intros split sentences repr random reader w w' H new.
  destruct (pass_appended _ _ _ _ _ _ _ H)
    as (Hm & Hs & _ & Hc & Hw & Hn & Hb & _).
  rewrite Hs, length_app. repeat split; try done. lia.
Qed.

Lemma second_pass :
  get_alignment_texts sample_split sample_sentences sample_repr sample_random
    loaded_world second_reader = Some grown_world.
Proof. vm_compute. reflexivity. Qed.

Lemma X3_blocks_follow_metadata_witness :
  get_alignment_texts sample_split sample_sentences sample_repr sample_random
    loaded_world second_reader = Some grown_world
  /\ let new := stored_by sample_random loaded_world second_reader in
     metadata (self grown_world) = (metadata (self loaded_world) ++ new)%list
       /\ embedding_strings (self grown_world)
          = (embedding_strings (self loaded_world)
             ++ flat_map (blocks_of sample_split sample_repr (self loaded_world))
                  new)%list
       /\ Forall (fun info =>
                    exists text, info_text info = JStr text /\ text <> "") new.
Proof.
  split; [exact second_pass |].
  exact (X3_blocks_follow_metadata sample_split sample_sentences sample_repr
           sample_random second_reader loaded_world grown_world second_pass).
Defined.

Lemma X4_totals_follow_metadata_witness :
  get_alignment_texts sample_split sample_sentences sample_repr sample_random
    loaded_world second_reader = Some grown_world
  /\ let new := stored_by sample_random loaded_world second_reader in
     metadata (self grown_world) = (metadata (self loaded_world) ++ new)%list
       /\ total_char_count (self grown_world)
          = total_char_count (self loaded_world) + chars_of new
       /\ total_word_count (self grown_world)
          = total_word_count (self loaded_world) + words_of new
       /\ total_sentence_count (self grown_world)
          = total_sentence_count (self loaded_world)
            + sentences_of sample_sentences new
       /\ total_block_count (self grown_world)
            + length (embedding_strings (self loaded_world))
          = total_block_count (self loaded_world)
            + length (embedding_strings (self grown_world)).
Proof.
  split; [exact second_pass |].
  exact (X4_totals_follow_metadata sample_split sample_sentences sample_repr
           sample_random second_reader loaded_world grown_world second_pass).
Defined.

(** ** The counters of a pass *)

Lemma tally_of_handler_same reason w :
  tally_of reason (handler reason w) = tally_of reason w + 1.
Proof. unfold tally_of, handler. cbn. by rewrite tally_lookup. Qed.

Lemma tally_of_handler_other reason other w :
  reason <> other -> tally_of other (handler reason w) = tally_of other w.
Proof.
  intros H. unfold tally_of, handler. cbn. by rewrite tally_lookup_ne.
Qed.

Lemma sum_counts_set k n d :
  sum_counts (count_set k n d) + count_of k d = sum_counts d + n.
Proof.
  unfold sum_counts. induction d as [|[k' n'] d IH]; cbn; [lia |].
  destruct (key_eqb k k'); cbn; lia.
Qed.

Lemma sum_counts_incr k d : sum_counts (count_incr k d) = sum_counts d + 1.
Proof.
  unfold count_incr.
  pose proof (sum_counts_set k (count_of k d + 1) d). lia.
Qed.

(** X5. When a pass comes to its end, [total_articles_count] has grown by
    the number of tuples added to the metadata list plus the number of
    rejections tallied under "Entry has no text.": the records rejected for
    their text are the only counted records that are not stored. *)
Theorem X5_article_count_accounting :
  forall split sentences repr random reader w w',
    get_alignment_texts split sentences repr random w reader = Some w' ->
    total_articles_count (self w') + length (metadata (self w))
      + tally_of "Entry has no text." w
    = total_articles_count (self w) + length (metadata (self w'))
      + tally_of "Entry has no text." w'.
Proof.
  intros split sentences repr random.
  apply (pass_relation split sentences repr random
           (fun w w' =>
              total_articles_count (self w') + length (metadata (self w))
                + tally_of "Entry has no text." w
              = total_articles_count (self w) + length (metadata (self w'))
                + tally_of "Entry has no text." w')).
  - reflexivity.
  - intros w1 w2 w3 H1 H2. lia.
  - intros w f w' He Ha. destruct He; cbn in Ha; simplify_eq.
    + reflexivity.
    + rewrite tally_of_handler_other by discriminate. reflexivity.
    + reflexivity.
    + rewrite tally_of_handler_same. cbn. unfold tally_of. cbn. lia.
    + cbn. rewrite length_app. unfold tally_of. cbn. lia.
Qed.

Lemma X5_article_count_accounting_witness :
  get_alignment_texts sample_split sample_sentences sample_repr sample_random
    loaded_world second_reader = Some grown_world
  /\ total_articles_count (self grown_world)
       + length (metadata (self loaded_world))
       + tally_of "Entry has no text." loaded_world
     = total_articles_count (self loaded_world)
       + length (metadata (self grown_world))
       + tally_of "Entry has no text." grown_world.
Proof.
  split; [exact second_pass |].
  exact (X5_article_count_accounting sample_split sample_sentences sample_repr
           sample_random second_reader loaded_world grown_world second_pass).
Defined.

(** X6. When a pass comes to its end, [total_articles_count] has grown by as
    much as the per-source counts of [articles_count] taken together. *)
Theorem X6_total_is_sum_of_source_counts :
  forall split sentences repr random reader w w',
    get_alignment_texts split sentences repr random w reader = Some w' ->
    total_articles_count (self w') + sum_counts (articles_count (self w))
    = total_articles_count (self w) + sum_counts (articles_count (self w')).
Proof.
  intros split sentences repr random.
  apply (pass_relation split sentences repr random
           (fun w w' =>
              total_articles_count (self w')
                + sum_counts (articles_count (self w))
              = total_articles_count (self w)
                + sum_counts (articles_count (self w')))).
  - reflexivity.
  - intros w1 w2 w3 H1 H2. lia.
  - intros w f w' He Ha. destruct He; cbn in Ha; simplify_eq;
      try reflexivity.
    + cbn. rewrite sum_counts_incr. lia.
    + cbn. rewrite sum_counts_incr. lia.
Qed.

Lemma X6_total_is_sum_of_source_counts_witness :
  get_alignment_texts sample_split sample_sentences sample_repr sample_random
    loaded_world second_reader = Some grown_world
  /\ total_articles_count (self grown_world)
       + sum_counts (articles_count (self loaded_world))
     = total_articles_count (self loaded_world)
       + sum_counts (articles_count (self grown_world)).
Proof.
  split; [exact second_pass |].
  exact (X6_total_is_sum_of_source_counts sample_split sample_sentences
           sample_repr sample_random second_reader loaded_world grown_world
           second_pass).
Defined.

(** X7. A pass raises [MissingDataException] with two messages only: when it
    comes to its end, the tally of every key of [error_count_dict] other
    than "Entry has no source." and "Entry has no text." is what it was, and
    these two have not decreased. The keys "Entry has no title.",
    "Entry has no URL." and "Entry has wrong citation level." stay at their
    initial value. *)
Theorem X7_other_error_keys_are_untouched :
  forall split sentences repr random reader w w',
    get_alignment_texts split sentences repr random w reader = Some w' ->
    (forall key,
       key <> "Entry has no source." -> key <> "Entry has no text." ->
       error_count_dict w' !! key = error_count_dict w !! key)
    /\ tally_of "Entry has no source." w <= tally_of "Entry has no source." w'
    /\ tally_of "Entry has no text." w <= tally_of "Entry has no text." w'.
Proof.
  intros split sentences repr random.
  apply (pass_relation split sentences repr random
           (fun w w' =>
              (forall key,
                 key <> "Entry has no source." ->
                 key <> "Entry has no text." ->
                 error_count_dict w' !! key = error_count_dict w !! key)
              /\ tally_of "Entry has no source." w
                 <= tally_of "Entry has no source." w'
              /\ tally_of "Entry has no text." w
                 <= tally_of "Entry has no text." w')).
  - auto.
  - intros w1 w2 w3 (H1 & ? & ?) (H2 & ? & ?).
    split; [| lia]. intros key Hs Ht. by rewrite H2, H1.
  - intros w f w' He Ha. destruct He; cbn in Ha; simplify_eq; auto.
    + split; [| split].
      * intros key Hs Ht. cbn. by apply tally_lookup_ne.
      * rewrite tally_of_handler_same. lia.
      * rewrite tally_of_handler_other by discriminate. lia.
    + split; [| split].
      * intros key Hs Ht. cbn. by apply tally_lookup_ne.
      * rewrite tally_of_handler_other by discriminate. reflexivity.
      * rewrite tally_of_handler_same. unfold tally_of. cbn. lia.
Qed.

Lemma X7_other_error_keys_are_untouched_witness :
  get_alignment_texts sample_split sample_sentences sample_repr sample_random
    loaded_world second_reader = Some grown_world
  /\ (forall key,
        key <> "Entry has no source." -> key <> "Entry has no text." ->
        error_count_dict grown_world !! key = error_count_dict loaded_world !! key)
  /\ tally_of "Entry has no source." loaded_world
     <= tally_of "Entry has no source." grown_world
  /\ tally_of "Entry has no text." loaded_world
     <= tally_of "Entry has no text." grown_world.
Proof.
  split; [exact second_pass |].
  exact (X7_other_error_keys_are_untouched sample_split sample_sentences
           sample_repr sample_random second_reader loaded_world grown_world
           second_pass).
Defined.

(** ** Strings *)

Lemma append_cons c (s t : string) : String c s +:+ t = String c (s +:+ t).
Proof. reflexivity. Qed.

Lemma append_assoc (s t u : string) : (s +:+ t) +:+ u = s +:+ (t +:+ u).
Proof.
  induction s as [|c s IH]; [reflexivity |].
  rewrite !append_cons. by f_equal.
Qed.

Lemma length_append (s t : string) :
  String.length (s +:+ t) = String.length s + String.length t.
Proof.
  induction s as [|c s IH]; [reflexivity |].
  rewrite append_cons. cbn [String.length]. by rewrite IH.
Qed.

Lemma substring_prefix (s t : string) :
  String.substring 0 (String.length s) (s +:+ t) = s.
Proof.
  induction s as [|c s IH]; [by destruct t |].
  rewrite append_cons. cbn [String.length String.substring]. by f_equal.
Qed.

Lemma substring_suffix (s t : string) m :
  String.substring (String.length s) m (s +:+ t) = String.substring 0 m t.
Proof.
  induction s as [|c s IH]; [reflexivity |].
  rewrite append_cons. cbn [String.length String.substring]. exact IH.
Qed.

Lemma length_substring_0 n (s : string) :
  n <= String.length s -> String.length (String.substring 0 n s) = n.
Proof.
  revert n. induction s as [|c s IH]; intros [|n];
    cbn [String.length String.substring]; try done; try lia.
  intros H. rewrite IH; lia.
Qed.

Lemma drop_last_append (s t : string) :
  drop_last (String.length t) (s +:+ t) = s.
Proof.
  unfold drop_last. rewrite length_append.
  replace (String.length s + String.length t - String.length t)
    with (String.length s) by lia.
  apply substring_prefix.
Qed.

Lemma append_nonempty (s t : string) : t <> "" -> s +:+ t <> "".
Proof. destruct s; [done |]. rewrite append_cons. discriminate. Qed.

(** ** The signature *)

Lemma cut_signature (joined : string) :
  (if negb (String.eqb (joined +:+ ", ") "")
   then drop_last 2 (joined +:+ ", ") else joined +:+ ", ")
  = joined.
Proof.
  assert (H : String.eqb (joined +:+ ", ") "" = false).
  { apply String.eqb_neq, append_nonempty. discriminate. }
  rewrite H. apply (drop_last_append joined ", ").
Qed.

(** X8. The signature of a tuple is made of "Title: ...", "Author: ...",
    "Date published: ..." and "URL: ...", in this order, for those of the
    four values that are not empty, joined by a comma and a space, with no
    separator at the end; it is the empty string when all four are empty,
    and it never mentions the tags or the text. *)
Theorem X8_signature_is_comma_joined :
  forall repr info,
    make_signature repr info = String.concat ", " (signature_parts repr info).
Proof.
  intros repr info. unfold make_signature, signature_parts.
  destruct (truthy (info_title info)), (truthy (info_author info)),
    (truthy (info_date_published info)), (truthy (info_url info));
    cbn [app]; try reflexivity.
  all: match goal with
       | |- (if negb (String.eqb ?S "") then _ else _) = ?X =>
           replace S with (X +:+ ", ")
             by (cbn [String.concat]; rewrite ?append_assoc; reflexivity);
           apply cut_signature
       end.
Qed.

(** ** Title, date and tags *)

Lemma strip_newline_ends_with_newline (t : string) :
  strip_newline (JStr (t +:+ newline)) = Ok (JStr t).
Proof.
  unfold strip_newline, py_last, py_drop_last.
  rewrite length_append. unfold newline at 1.
  cbn [String.length]. replace (String.length t + 1) with (S (String.length t))
    by lia.
  rewrite substring_suffix. cbn [bind].
  replace (py_eq_str (JStr (String.substring 0 1 newline)) newline) with true
    by reflexivity.
  f_equal. f_equal. apply (drop_last_append t newline).
Qed.

Lemma truthy_append_newline (t : string) :
  truthy (JStr (t +:+ newline)) = true.
Proof.
  cbn. apply negb_true_iff, String.eqb_neq, append_nonempty. discriminate.
Qed.

(** X9. Take the title field of a record to be [title] or, when the record
    has no such key, [book_title]. When its value ends in a newline, that
    newline is removed, once, unless the record has both keys: then the
    title is stored with its newline. *)
Theorem X9_trailing_newline_of_title :
  forall (article : dict) (t : string),
    has "title" article || has "book_title" article = true ->
    first_present (fun _ => true) ["title"; "book_title"] article
    = JStr (t +:+ newline) ->
    get_title article
    = Ok (JStr (if has "title" article && has "book_title" article
                then t +:+ newline else t)).
Proof.
  intros article t Hh. unfold first_present, get_title. cbn [first_field].
  destruct (has "title" article), (has "book_title" article);
    try discriminate; cbn [andb negb]; intros ->;
    rewrite truthy_append_newline;
    first [reflexivity | apply strip_newline_ends_with_newline].
Qed.

Lemma X9_trailing_newline_of_title_witness :
  let article := [("book_title", JStr ("A book" +:+ newline))] in
  has "title" article || has "book_title" article = true
  /\ first_present (fun _ => true) ["title"; "book_title"] article
     = JStr ("A book" +:+ newline)
  /\ get_title article
     = Ok (JStr (if has "title" article && has "book_title" article
                 then "A book" +:+ newline else "A book")).
Proof.
  intros article. split; [reflexivity |]. split; [reflexivity |].
  exact (X9_trailing_newline_of_title article "A book" eq_refl eq_refl).
Defined.

Lemma long_enough_true k n a :
  long_enough k n a = Ok true ->
  has k a = true /\ exists r, py_len a.[k] = Ok r /\ n <= r.
Proof.
  unfold long_enough. destruct (has k a); cbn [andb]; [| discriminate].
  destruct (truthy a.[k]); [| discriminate].
  destruct (py_len a.[k]) as [r| |]; cbn [bind]; try discriminate.
  intros [= H]. apply Nat.leb_le in H. eauto.
Qed.

Lemma py_take_length n v r v' :
  py_len v = Ok r -> n <= r -> py_take n v = Ok v' -> py_len v' = Ok n.
Proof.
  destruct v as [| | |s|l|]; try discriminate; cbn; intros [= <-] Hn [= <-].
  - cbn. f_equal. by apply length_substring_0.
  - cbn. f_equal. rewrite length_take. lia.
Qed.

(** X10. The date of a record, when the extraction returns one, is the first
    10 characters of [date_published] or, failing that, the first 16
    characters of [published]; it is never shorter or longer, and it is
    [None] when neither field is long enough. *)
Theorem X10_date_has_ten_or_sixteen_characters :
  forall (article : dict) (v : json),
    get_date_published article = Ok v ->
    (has "date_published" article = true
     /\ py_take 10 article.["date_published"] = Ok v /\ py_len v = Ok 10)
    \/ (long_enough "date_published" 10 article = Ok false
        /\ has "published" article = true
        /\ py_take 16 article.["published"] = Ok v /\ py_len v = Ok 16)
    \/ (long_enough "date_published" 10 article = Ok false
        /\ long_enough "published" 16 article = Ok false
        /\ v = JNull).
Proof.
  intros article v. unfold get_date_published.
  destruct (long_enough "date_published" 10 article) as [[|]| |] eqn:E1;
    cbn [bind]; try discriminate.
  - apply long_enough_true in E1 as (Hh & r & Hr & Hle).
    intros Ht. left. eauto using py_take_length.
  - destruct (long_enough "published" 16 article) as [[|]| |] eqn:E2;
      cbn [bind]; try discriminate.
    + apply long_enough_true in E2 as (Hh & r & Hr & Hle).
      intros Ht. right. left. eauto 6 using py_take_length.
    + intros [= <-]. auto.
Qed.

Lemma X10_date_has_ten_or_sixteen_characters_witness :
  let article := dated "2020" "2021-06-30T12:00:00Z" in
  let v := JStr "2021-06-30T12:00" in
  get_date_published article = Ok v
  /\ ((has "date_published" article = true
       /\ py_take 10 article.["date_published"] = Ok v /\ py_len v = Ok 10)
      \/ (long_enough "date_published" 10 article = Ok false
          /\ has "published" article = true
          /\ py_take 16 article.["published"] = Ok v /\ py_len v = Ok 16)
      \/ (long_enough "date_published" 10 article = Ok false
          /\ long_enough "published" 16 article = Ok false
          /\ v = JNull)).
Proof.
  intros article v.
  assert (H : get_date_published article = Ok v) by reflexivity.
  split; [exact H |].
  exact (X10_date_has_ten_or_sixteen_characters article v H).
Defined.

Lemma py_join_strings (terms : list string) :
  py_join ", " (JStr <$> terms) = Ok (String.concat ", " terms).
Proof.
  induction terms as [|t terms IH]; [reflexivity |].
  destruct terms as [|t' terms']; [reflexivity |].
  change (py_join ", " (JStr <$> t :: t' :: terms'))
    with (r <- py_join ", " (JStr <$> t' :: terms') ;;
          Ok (t +:+ ", " +:+ r)).
  rewrite IH. reflexivity.
Qed.

Lemma mapM_py_term_objects objs terms :
  Forall2 (fun obj term =>
             exists o, obj = JObj o /\ has "term" o = true
                       /\ o.["term"] = JStr term) objs terms ->
  mapM py_term objs = Ok (JStr <$> terms).
Proof.
  induction 1 as [|obj term objs terms (o & -> & Hh & Ht) _ IH];
    [reflexivity |].
  cbn [mapM py_term]. rewrite Hh, Ht. cbn [bind]. rewrite IH. reflexivity.
Qed.

(** X11. When [tags] is a list, not empty, of objects that each have a
    string under "term", the tags of the tuple are these terms joined by a
    comma and a space, in the order of the list. *)
Theorem X11_tags_are_joined_terms :
  forall (article : dict) (objs : list json) (terms : list string),
    has "tags" article = true ->
    article.["tags"] = JList objs ->
    objs <> [] ->
    Forall2 (fun obj term =>
               exists o, obj = JObj o /\ has "term" o = true
                         /\ o.["term"] = JStr term) objs terms ->
    get_tags article = Ok (JStr (String.concat ", " terms)).
Proof.
  intros article objs terms Hh Hv Hne Hterms. unfold get_tags.
  rewrite Hh, Hv. destruct objs as [|obj objs]; [done |]. cbn [andb truthy].
  rewrite (mapM_py_term_objects _ _ Hterms). cbn [bind].
  rewrite py_join_strings. reflexivity.
Qed.

Lemma X11_tags_are_joined_terms_witness :
  let objs := [JObj [("term", JStr "ai")];
               JObj [("scheme", JNull); ("term", JStr "safety")]] in
  let article := [("tags", JList objs); ("text", JStr "Some text.")] in
  has "tags" article = true
  /\ article.["tags"] = JList objs
  /\ objs <> []
  /\ Forall2 (fun obj term =>
                exists o, obj = JObj o /\ has "term" o = true
                          /\ o.["term"] = JStr term) objs ["ai"; "safety"]
  /\ get_tags article = Ok (JStr (String.concat ", " ["ai"; "safety"])).
Proof.
  intros objs article.
  assert (Hne : objs <> []) by discriminate.
  assert (Hterms : Forall2 (fun obj term =>
                              exists o, obj = JObj o /\ has "term" o = true
                                        /\ o.["term"] = JStr term)
                     objs ["ai"; "safety"]).
  { repeat constructor; eexists; repeat split; reflexivity. }
  split; [reflexivity |]. split; [reflexivity |]. split; [exact Hne |].
  split; [exact Hterms |].
  exact (X11_tags_are_joined_terms article objs ["ai"; "safety"]
           eq_refl eq_refl Hne Hterms).
Defined.

(** ** Records that are passed over *)

(** X12. A record with a source that the sampling drops, or whose source is
    not among the custom sources, uses up one random number and changes
    nothing else: it is not counted, and it is not looked at any further, so
    that it is not tallied as an error even when it has no text. *)
Theorem X12_passed_over_record :
  forall split sentences repr random w entry,
    has "source" entry = true ->
    Qle_bool (random (draws w)) (fraction_of_articles_to_use (self w)) = false
    \/ (exists sources,
          custom_sources (self w) = Some sources
          /\ existsb (py_eq_str entry.["source"]) sources = false) ->
    process_entry split sentences repr random w entry = Continue (drawn w).
Proof.
  intros split sentences repr random w entry Hs Hcase.
  unfold process_entry, resolve_source. rewrite Hs. cbn [negb].
  cbn zeta. cbn [self error_count_dict draws].
  destruct (Qle_bool _ _) eqn:Eq; cbn [negb]; [| reflexivity].
  destruct Hcase as [Hq | (sources & -> & ->)]; [congruence | reflexivity].
Qed.

Lemma X12_passed_over_record_witness :
  let w := main_world "data.jsonl" in
  has "source" record_without_text = true
  /\ (Qle_bool (sample_random (draws w)) (fraction_of_articles_to_use (self w))
      = false
      \/ (exists sources,
            custom_sources (self w) = Some sources
            /\ existsb (py_eq_str record_without_text.["source"]) sources
               = false))
  /\ process_entry sample_split sample_sentences sample_repr sample_random w
       record_without_text = Continue (drawn w).
Proof.
  intros w.
  assert (Hc : Qle_bool (sample_random (draws w))
                 (fraction_of_articles_to_use (self w)) = false
               \/ (exists sources,
                     custom_sources (self w) = Some sources
                     /\ existsb (py_eq_str record_without_text.["source"])
                          sources = false)).
  { right. exists main_custom_sources. split; reflexivity. }
  split; [reflexivity |]. split; [exact Hc |].
  exact (X12_passed_over_record sample_split sample_sentences sample_repr
           sample_random w record_without_text eq_refl Hc).
Defined.

Lemma fallback_not_in_main name :
  In name fallback_sources ->
  existsb (py_eq_str (JStr name)) main_custom_sources = false.
Proof.
  intros [<- | [<- | [<- | [<- | []]]]]; reflexivity.
Qed.

(** X13. With the list of sources that the script passes to [Dataset], a
    record without a [source] field never gets into the dataset: whatever
    else it holds, the object is left as it was. The sources that the
    fallback rules assign are not in that list. *)
Theorem X13_script_ignores_records_without_source :
  forall split sentences repr random w entry,
    custom_sources (self w) = Some main_custom_sources ->
    has "source" entry = false ->
    match process_entry split sentences repr random w entry with
    | Continue w' | Raise _ w' => self w' = self w
    | Crash => py_take 24 entry.["url"] = Uncaught
    end.
Proof.
  intros split sentences repr random w entry Hc Hs.
  unfold process_entry.
  pose proof (resolve_source_cases entry) as Hr.
  destruct (resolve_source entry) as [[entry'|]|reason|];
    [| reflexivity | reflexivity | by destruct Hr as (_ & _ & ?)].
  rewrite Hs in Hr. destruct Hr as (_ & name & Hname & ->).
  cbn zeta. cbn [self error_count_dict draws]. rewrite Hc.
  destruct (negb (Qle_bool _ _)); [reflexivity |].
  replace ((dict_set "source" (JStr name) entry).["source"]) with (JStr name)
    by reflexivity.
  rewrite (fallback_not_in_main name Hname). reflexivity.
Qed.

Lemma X13_script_ignores_records_without_source_witness :
  let w := main_world "data.jsonl" in
  custom_sources (self w) = Some main_custom_sources
  /\ has "source" cold_takes_printout = false
  /\ match
       process_entry sample_split sample_sentences sample_repr sample_random
         w cold_takes_printout
     with
     | Continue w' | Raise _ w' => self w' = self w
     | Crash => py_take 24 cold_takes_printout.["url"] = Uncaught
     end.
Proof.
  intros w. split; [reflexivity |]. split; [reflexivity |].
  exact (X13_script_ignores_records_without_source sample_split
           sample_sentences sample_repr sample_random w cold_takes_printout
           eq_refl eq_refl).
Defined.

(** ** The workers of an embedding run *)

Lemma wait_window release n c r :
  wait_exponential 1 1 20 n = c -> In c [1; 2; 4; 8]%Q -> (0 <= r <= 1)%Q ->
  (0 <= wait_random_exponential release 1 20 n r <= c)%Q.
Proof.
  intros Hc Hin Hr. rewrite (wait_random_exponential_window release n c r Hc).
  pose proof (uniform_in_window release c r Hin Hr) as [Hl Hu].
  split; [| exact Hu]. destruct release; cbn [lowest_wait] in *; lra.
Qed.

Lemma backoff_seconds_attempt delay text seconds trace :
  backoff_seconds ([Sleep delay; Request text] ++ Backoff seconds :: trace)
  = (seconds + backoff_seconds trace)%Q.
Proof. reflexivity. Qed.

Lemma backoff_seconds_body delay text :
  backoff_seconds [Sleep delay; Request text] = 0%Q.
Proof. reflexivity. Qed.

Section WorkerFacts.

Variable release : tenacity_release.
Variable create : nat -> string -> nat -> option (list Q).
Variable jitter : nat -> nat -> Q.
Variable text : string.
Variable i : nat.
Variable delay : Q.

Lemma retrying_requests_text fuel : forall n,
  Forall (requests_text text) (retrying release create jitter fuel n text i delay).2.
Proof.
  induction fuel as [|fuel IH]; intros n; [constructor |].
  rewrite retrying_step. destruct (create i text n).
  { constructor; [exact I |]. constructor; [reflexivity | constructor]. }
  destruct (stop_after_attempt 5 n).
  { constructor; [exact I |]. constructor; [reflexivity | constructor]. }
  cbn [snd app]. constructor; [exact I |]. constructor; [reflexivity |].
  constructor; [exact I | apply IH].
Qed.

Lemma retrying_requests_ge fuel n :
  1 <= requests (retrying release create jitter (S fuel) n text i delay).2.
Proof.
  rewrite retrying_step. destruct (create i text n); [cbn; lia |].
  destruct (stop_after_attempt 5 n); [cbn; lia |].
  cbn [snd]. rewrite requests_attempt. lia.
Qed.


End WorkerFacts.

(** X14. Between its first and its last request, a call of
    [get_embedding_at_index] backs off for at most 15 time units in all,
    with every release of [tenacity]: the four waits are drawn from windows
    that end at 1, 2, 4 and 8. *)
Theorem X14_total_backoff_is_bounded :
  forall release create jitter text i delay,
    (forall k, (0 <= jitter i k <= 1)%Q) ->
    (backoff_seconds
       (get_embedding_at_index release create jitter text i delay).2
     <= 15)%Q.
Proof.
  intros release create jitter text i delay Hj. unfold get_embedding_at_index.
  pose proof (wait_window release 1 1 (jitter i 1) eq_refl
                ltac:(cbn; auto) (Hj 1)) as [L1 H1].
  pose proof (wait_window release 2 2 (jitter i 2) eq_refl
                ltac:(cbn; auto) (Hj 2)) as [L2 H2].
  pose proof (wait_window release 3 4 (jitter i 3) eq_refl
                ltac:(cbn; auto) (Hj 3)) as [L3 H3].
  pose proof (wait_window release 4 8 (jitter i 4) eq_refl
                ltac:(cbn; auto 6) (Hj 4)) as [L4 H4].
  rewrite retrying_step.
  destruct (create i text 1); [cbn [snd]; rewrite backoff_seconds_body; lra |].
  cbn [stop_after_attempt Nat.leb snd]. rewrite backoff_seconds_attempt.
  rewrite retrying_step.
  destruct (create i text 2); [cbn [snd]; rewrite backoff_seconds_body; lra |].
  cbn [stop_after_attempt Nat.leb snd]. rewrite backoff_seconds_attempt.
  rewrite retrying_step.
  destruct (create i text 3); [cbn [snd]; rewrite backoff_seconds_body; lra |].
  cbn [stop_after_attempt Nat.leb snd]. rewrite backoff_seconds_attempt.
  rewrite retrying_step.
  destruct (create i text 4); [cbn [snd]; rewrite backoff_seconds_body; lra |].
  cbn [stop_after_attempt Nat.leb snd]. rewrite backoff_seconds_attempt.
  rewrite retrying_step.
  destruct (create i text 5); cbn [stop_after_attempt Nat.leb snd];
    rewrite backoff_seconds_body; lra.
Qed.

Lemma X14_total_backoff_is_bounded_witness :
  (forall k, (0 <= sample_jitter 0 k <= 1)%Q)
  /\ (backoff_seconds
        (get_embedding_at_index From_9_0 dead_create sample_jitter "block" 0 0).2
      <= 15)%Q.
Proof.
  assert (H : forall k, (0 <= sample_jitter 0 k <= 1)%Q).
  { intros k. split; vm_compute; discriminate. }
  split; [exact H |].
  exact (X14_total_backoff_is_bounded From_9_0 dead_create sample_jitter "block" 0 0%Q H).
Defined.

(** X15. An embedding run has one worker for each block text; the worker of
    block [i] sends between one and five requests, each of them with the
    text at index [i]. *)
Theorem X15_each_worker_requests_its_block :
  forall release create jitter d,
    length (worker_traces release create jitter d) = length (embedding_strings d)
    /\ forall i text,
         embedding_strings d !! i = Some text ->
         exists trace,
           worker_traces release create jitter d !! i = Some trace
           /\ 1 <= requests trace <= 5
           /\ Forall (requests_text text) trace.
Proof.
  intros release create jitter d. unfold worker_traces, submit_all. split.
  - by rewrite length_fmap, length_imap.
  - intros i text Ht. rewrite list_lookup_fmap, list_lookup_imap, Ht.
    cbn -[get_embedding_at_index]. eexists. split; [reflexivity |].
    unfold get_embedding_at_index. split; [split |].
    + apply retrying_requests_ge.
    + apply retrying_requests_le.
    + apply retrying_requests_text.
Qed.

(** ** The matrix of an embedding run *)

Lemma first_answer_exists create text i :
  (exists k, 1 <= k <= 5 /\ is_Some (create i text k)) ->
  exists k v, first_answer create text i 1 k v /\ k <= 5.
Proof.
  intros (k0 & Hk0 & Hsome). unfold first_answer.
  destruct (create i text 1) as [v1|] eqn:E1.
  { exists 1, v1. repeat split; [lia | done | lia | lia]. }
  destruct (create i text 2) as [v2|] eqn:E2.
  { exists 2, v2. repeat split; [lia | done | | lia].
    intros j Hj. by replace j with 1 by lia. }
  destruct (create i text 3) as [v3|] eqn:E3.
  { exists 3, v3. repeat split; [lia | done | | lia].
    intros j Hj. assert (j = 1 \/ j = 2) as [-> | ->] by lia; done. }
  destruct (create i text 4) as [v4|] eqn:E4.
  { exists 4, v4. repeat split; [lia | done | | lia].
    intros j Hj. assert (j = 1 \/ j = 2 \/ j = 3) as [-> | [-> | ->]] by lia;
      done. }
  destruct (create i text 5) as [v5|] eqn:E5.
  { exists 5, v5. repeat split; [lia | done | | lia].
    intros j Hj.
    assert (j = 1 \/ j = 2 \/ j = 3 \/ j = 4) as [-> | [-> | [-> | ->]]]
      by lia; done. }
  exfalso.
  assert (k0 = 1 \/ k0 = 2 \/ k0 = 3 \/ k0 = 4 \/ k0 = 5)
    as [-> | [-> | [-> | [-> | ->]]]] by lia;
    destruct Hsome as [v Hv]; congruence.
Qed.

Section RunFacts.

Variable LEN_EMBEDDINGS : nat.
Variable release : tenacity_release.
Variable create : nat -> string -> nat -> option (list Q).
Variable jitter : nat -> nat -> Q.

(** The service answers with vectors of the row length. *)
Hypothesis answers_fit :
  forall i text k v, create i text k = Some v -> length v = LEN_EMBEDDINGS.

Lemma futures_fit strings j i v :
  (fst <$> submit_all release create jitter strings) !! j = Some (Returned i v) ->
  length v = LEN_EMBEDDINGS.
Proof.
  rewrite futures_lookup. destruct (strings !! j) as [text|]; [| done].
  cbn -[get_embedding_at_index]. intros [= Hf].
  apply retrying_returned in Hf as (_ & k & _ & Hv). by eapply answers_fit.
Qed.

(** The rows of a run that has come to its end. *)
Lemma completed_rows d completed d' :
  Permutation completed (seq 0 (length (embedding_strings d))) ->
  get_embeddings LEN_EMBEDDINGS release create jitter d completed = (Completed, d') ->
  exists m,
    d' = set_embeddings m d
    /\ length m = length (embedding_strings d)
    /\ forall i text,
         embedding_strings d !! i = Some text ->
         exists v,
           m !! i = Some v
           /\ (get_embedding_at_index release create jitter text i 0).1 = Returned i v.
Proof.
  intros Hperm. unfold get_embeddings.
  destruct (collect _ _ _ _) as [s m'] eqn:Ec. intros [= -> <-].
  exists m'. split; [reflexivity |].
  pose proof (collect_length _ _ _ _ _ _ Ec) as Hl.
  rewrite zeros_length in Hl. split; [exact Hl |].
  apply collect_completed in Ec as [Hin _].
  - intros i text Ht.
    destruct (Hin i) as (v & Hf & Hm).
    { rewrite Hperm. apply elem_of_seq. apply lookup_lt_Some in Ht. lia. }
    { rewrite futures_lookup, Ht. by eexists. }
    rewrite futures_lookup, Ht in Hf. cbn -[get_embedding_at_index] in Hf.
    injection Hf as Hf. eauto.
  - apply futures_own_index.
  - rewrite Hperm. apply NoDup_seq.
  - apply futures_fit.
Qed.

Lemma run_completes_iff d completed :
  Permutation completed (seq 0 (length (embedding_strings d))) ->
  (get_embeddings LEN_EMBEDDINGS release create jitter d completed).1 = Completed
  <-> (forall i text,
         embedding_strings d !! i = Some text ->
         exists k, 1 <= k <= 5 /\ is_Some (create i text k)).
Proof.
  intros Hperm. split.
  - intros Hc i text Ht.
    destruct (get_embeddings _ _ _ _ d completed) as [s d'] eqn:Er.
    cbn in Hc. subst s.
    destruct (completed_rows _ _ _ Hperm Er) as (m & _ & _ & Hrows).
    destruct (Hrows i text Ht) as (v & _ & Hf).
    apply retrying_returned in Hf as (_ & k & Hk & Hv).
    exists k. split; [lia | by eexists].
  - intros Hall. apply get_embeddings_completes; [done | apply answers_fit |].
    intros i text Ht. by apply first_answer_exists, Hall.
Qed.

Lemma run_order_independent d completed completed' :
  Permutation completed (seq 0 (length (embedding_strings d))) ->
  Permutation completed' (seq 0 (length (embedding_strings d))) ->
  (get_embeddings LEN_EMBEDDINGS release create jitter d completed).1 = Completed ->
  get_embeddings LEN_EMBEDDINGS release create jitter d completed'
  = get_embeddings LEN_EMBEDDINGS release create jitter d completed.
Proof.
  intros Hperm Hperm' Hc.
  assert (Hc' : (get_embeddings LEN_EMBEDDINGS release create jitter d completed').1
                = Completed).
  { apply run_completes_iff; [done |]. by apply (run_completes_iff d completed). }
  destruct (get_embeddings _ _ _ _ d completed) as [s d1] eqn:E1.
  destruct (get_embeddings _ _ _ _ d completed') as [s' d2] eqn:E2.
  cbn in Hc, Hc'. subst s s'.
  destruct (completed_rows _ _ _ Hperm E1) as (m1 & -> & Hl1 & Hr1).
  destruct (completed_rows _ _ _ Hperm' E2) as (m2 & -> & Hl2 & Hr2).
  f_equal. f_equal. apply list_eq. intros i.
  destruct (embedding_strings d !! i) as [text|] eqn:Ht.
  - destruct (Hr1 i text Ht) as (v1 & -> & Hf1).
    destruct (Hr2 i text Ht) as (v2 & -> & Hf2). congruence.
  - apply lookup_ge_None in Ht.
    rewrite !(proj2 (lookup_ge_None _ _)) by lia. reflexivity.
Qed.

End RunFacts.

(** X16. With a service that answers with vectors of [LEN_EMBEDDINGS]
    entries, an embedding run comes to its end exactly when every block gets
    an answer to one of its first five requests, whatever the order in which
    the futures complete. *)
Theorem X16_run_completes_iff_all_blocks_answered :
  forall LEN_EMBEDDINGS release create jitter d completed,
    (forall i text k v, create i text k = Some v -> length v = LEN_EMBEDDINGS) ->
    Permutation completed (seq 0 (length (embedding_strings d))) ->
    (get_embeddings LEN_EMBEDDINGS release create jitter d completed).1 = Completed
    <-> (forall i text,
           embedding_strings d !! i = Some text ->
           exists k, 1 <= k <= 5 /\ is_Some (create i text k)).
Proof.
  intros LEN release create jitter d completed Hfit Hperm.
  by apply run_completes_iff.
Qed.

Lemma X16_run_completes_iff_all_blocks_answered_witness :
  (forall i text k v, flaky_create i text k = Some v -> length v = 2)
  /\ Permutation [1; 0] (seq 0 (length (embedding_strings two_block_dataset)))
  /\ ((get_embeddings 2 From_9_0 flaky_create sample_jitter two_block_dataset [1; 0]).1
      = Completed
      <-> (forall i text,
             embedding_strings two_block_dataset !! i = Some text ->
             exists k, 1 <= k <= 5 /\ is_Some (flaky_create i text k))).
Proof.
  assert (Hperm : Permutation [1; 0]
                    (seq 0 (length (embedding_strings two_block_dataset))))
    by (simpl; apply perm_swap).
  split; [exact flaky_create_length |]. split; [exact Hperm |].
  exact (X16_run_completes_iff_all_blocks_answered 2 From_9_0 flaky_create
           sample_jitter two_block_dataset [1; 0] flaky_create_length Hperm).
Defined.

(** X17. With a service that answers with vectors of [LEN_EMBEDDINGS]
    entries, the outcome of an embedding run that comes to its end does not
    depend on the order in which the futures complete: every other order
    leads to the same dataset. *)
Theorem X17_completed_run_is_order_independent :
  forall LEN_EMBEDDINGS release create jitter d completed completed',
    (forall i text k v, create i text k = Some v -> length v = LEN_EMBEDDINGS) ->
    Permutation completed (seq 0 (length (embedding_strings d))) ->
    Permutation completed' (seq 0 (length (embedding_strings d))) ->
    (get_embeddings LEN_EMBEDDINGS release create jitter d completed).1 = Completed ->
    get_embeddings LEN_EMBEDDINGS release create jitter d completed'
    = get_embeddings LEN_EMBEDDINGS release create jitter d completed.
Proof.
  intros LEN release create jitter d completed completed' Hfit Hperm Hperm' Hc.
  by apply run_order_independent.
Qed.

Lemma X17_completed_run_is_order_independent_witness :
  (forall i text k v, flaky_create i text k = Some v -> length v = 2)
  /\ Permutation [1; 0] (seq 0 (length (embedding_strings two_block_dataset)))
  /\ Permutation [0; 1] (seq 0 (length (embedding_strings two_block_dataset)))
  /\ (get_embeddings 2 From_9_0 flaky_create sample_jitter two_block_dataset [1; 0]).1
     = Completed
  /\ get_embeddings 2 From_9_0 flaky_create sample_jitter two_block_dataset [0; 1]
     = get_embeddings 2 From_9_0 flaky_create sample_jitter two_block_dataset [1; 0].
Proof.
  assert (Hperm : Permutation [1; 0]
                    (seq 0 (length (embedding_strings two_block_dataset))))
    by (simpl; apply perm_swap).
  assert (Hperm' : Permutation [0; 1]
                     (seq 0 (length (embedding_strings two_block_dataset))))
    by (simpl; reflexivity).
  assert (Hc : (get_embeddings 2 From_9_0 flaky_create sample_jitter two_block_dataset
                  [1; 0]).1 = Completed) by (vm_compute; reflexivity).
  split; [exact flaky_create_length |]. split; [exact Hperm |].
  split; [exact Hperm' |]. split; [exact Hc |].
  exact (X17_completed_run_is_order_independent 2 From_9_0 flaky_create sample_jitter
           two_block_dataset [1; 0] [0; 1] flaky_create_length Hperm Hperm' Hc).
Defined.

Lemma assign_row_shape LEN m i v m' :
  assign_row LEN m i v = Some m' ->
  Forall (fun row => length row = LEN) m ->
  Forall (fun row => length row = LEN) m'.
Proof.
  unfold assign_row. destruct (length m <=? i)%nat; [discriminate |].
  destruct (Nat.eqb_spec (length v) LEN) as [Hv | Hv].
  - intros [= <-] Hm. by apply Forall_insert.
  - destruct v as [|x [|? ?]]; try discriminate.
    intros [= <-] Hm. apply Forall_insert; [done |]. apply length_replicate.
Qed.

Lemma collect_shape LEN futures completed : forall m s m',
  collect LEN futures m completed = (s, m') ->
  Forall (fun row => length row = LEN) m ->
  length m' = length m /\ Forall (fun row => length row = LEN) m'.
Proof.
  induction completed as [|j rest IH]; intros m s m'; cbn [collect].
  - by intros [= <- <-].
  - destruct (futures !! j) as [[i v| |]|]; try by intros [= <- <-].
    + destruct (assign_row LEN m i v) as [m1|] eqn:E; [| by intros [= <- <-]].
      intros Hc Hm.
      destruct (IH _ _ _ Hc (assign_row_shape _ _ _ _ _ E Hm)) as [Hl Hf].
      split; [| done]. rewrite Hl.
      unfold assign_row in E. destruct (length m <=? i)%nat; [discriminate |].
      destruct (length v =? LEN)%nat;
        [by injection E as <-; apply length_insert |].
      destruct v as [|x [|? ?]]; try discriminate.
      injection E as <-. apply length_insert.
    + apply IH.
Qed.

(** X18. Whatever the service answers and in whatever order, and whether the
    run comes to its end or raises, [get_embeddings] leaves in the
    [embeddings] attribute a matrix with one row for each block text and
    [LEN_EMBEDDINGS] entries in each row, and changes no other attribute. *)
Theorem X18_matrix_shape :
  forall LEN_EMBEDDINGS release create jitter d completed,
    exists m,
      (get_embeddings LEN_EMBEDDINGS release create jitter d completed).2
      = set_embeddings m d
      /\ length m = length (embedding_strings d)
      /\ Forall (fun row => length row = LEN_EMBEDDINGS) m.
Proof.
  intros LEN release create jitter d completed. unfold get_embeddings.
  destruct (collect _ _ _ _) as [s m'] eqn:Ec. exists m'.
  split; [reflexivity |].
  apply collect_shape in Ec as [Hl Hf].
  - split; [| exact Hf]. rewrite Hl. apply length_replicate.
  - apply Forall_replicate, length_replicate.
Qed.

(** ** Files *)

Lemma append_npy_differs (path : string) : path +:+ ".npy" <> path.
Proof.
  intros H. apply (f_equal String.length) in H.
  rewrite length_append in H. cbn in H. lia.
Qed.

(** X19. Saving to a path that does not end in ".npy" writes the file
    named path + ".npy", from which the matrix can be loaded, and leaves the
    file named by the path itself alone: loading from the path still gives
    what it gave before the save, the older content or a failure. *)
Theorem X19_save_without_extension :
  forall d d0 path fs m,
    endswith path ".npy" = false ->
    embeddings d = Some m ->
    exists fs',
      save_embeddings d path fs = Ok fs'
      /\ load_embeddings d0 (path +:+ ".npy") fs' = Ok (set_embeddings m d0)
      /\ load_embeddings d0 path fs' = load_embeddings d0 path fs
      /\ forall other, other <> path +:+ ".npy" -> fs' !! other = fs !! other.
Proof.
  intros d d0 path fs m Hext Hm.
  unfold save_embeddings, load_embeddings, np_save, np_load.
  rewrite Hm, Hext. eexists. split; [reflexivity |].
  rewrite lookup_insert_eq, lookup_insert_ne by apply append_npy_differs.
  repeat split. intros other Hne. by rewrite lookup_insert_ne.
Qed.

Lemma X19_save_without_extension_witness :
  endswith "embeddings" ".npy" = false
  /\ embeddings stored_dataset = Some [[0%Q; 1%Q]; [1%Q; 1%Q]]
  /\ exists fs',
       save_embeddings stored_dataset "embeddings" ∅ = Ok fs'
       /\ load_embeddings two_block_dataset ("embeddings" +:+ ".npy") fs'
          = Ok (set_embeddings [[0%Q; 1%Q]; [1%Q; 1%Q]] two_block_dataset)
       /\ load_embeddings two_block_dataset "embeddings" fs'
          = load_embeddings two_block_dataset "embeddings" ∅
       /\ forall other,
            other <> "embeddings" +:+ ".npy" ->
            fs' !! other = (∅ : gmap string (list (list Q))) !! other.
Proof.
  split; [reflexivity |]. split; [reflexivity |].
  exact (X19_save_without_extension stored_dataset two_block_dataset
           "embeddings" ∅ [[0%Q; 1%Q]; [1%Q; 1%Q]] eq_refl eq_refl).
Defined.

(** ** What a pass leaves alone *)

(** X20. A pass changes neither the [embeddings] attribute nor the settings
    of the object: a matrix that was computed or loaded before the pass
    stays as it is while the list of block texts grows. *)
Theorem X20_pass_keeps_matrix_and_settings :
  forall split sentences repr random reader w w',
    get_alignment_texts split sentences repr random w reader = Some w' ->
    embeddings (self w') = embeddings (self w)
    /\ custom_sources (self w') = custom_sources (self w)
    /\ fraction_of_articles_to_use (self w')
       = fraction_of_articles_to_use (self w)
    /\ rate_limit_per_minute (self w') = rate_limit_per_minute (self w)
    /\ delay_in_seconds (self w') = delay_in_seconds (self w)
    /\ min_tokens_per_block (self w') = min_tokens_per_block (self w)
    /\ max_tokens_per_block (self w') = max_tokens_per_block (self w)
    /\ jsonl_data_path (self w') = jsonl_data_path (self w).
Proof.
  intros split sentences repr random.
  apply (pass_relation split sentences repr random
           (fun w w' =>
              embeddings (self w') = embeddings (self w)
              /\ custom_sources (self w') = custom_sources (self w)
              /\ fraction_of_articles_to_use (self w')
                 = fraction_of_articles_to_use (self w)
              /\ rate_limit_per_minute (self w') = rate_limit_per_minute (self w)
              /\ delay_in_seconds (self w') = delay_in_seconds (self w)
              /\ min_tokens_per_block (self w') = min_tokens_per_block (self w)
              /\ max_tokens_per_block (self w') = max_tokens_per_block (self w)
              /\ jsonl_data_path (self w') = jsonl_data_path (self w))).
  - intros w0. repeat split.
  - intros w1 w2 w3 (?&?&?&?&?&?&?&?) (?&?&?&?&?&?&?&?).
    repeat split; congruence.
  - intros w f w' He Ha. destruct He; cbn in Ha; simplify_eq;
      repeat split.
Qed.

Lemma X20_pass_keeps_matrix_and_settings_witness :
  get_alignment_texts sample_split sample_sentences sample_repr sample_random
    loaded_world second_reader = Some grown_world
  /\ embeddings (self grown_world) = embeddings (self loaded_world)
  /\ custom_sources (self grown_world) = custom_sources (self loaded_world)
  /\ fraction_of_articles_to_use (self grown_world)
     = fraction_of_articles_to_use (self loaded_world)
  /\ rate_limit_per_minute (self grown_world)
     = rate_limit_per_minute (self loaded_world)
  /\ delay_in_seconds (self grown_world) = delay_in_seconds (self loaded_world)
  /\ min_tokens_per_block (self grown_world)
     = min_tokens_per_block (self loaded_world)
  /\ max_tokens_per_block (self grown_world)
     = max_tokens_per_block (self loaded_world)
  /\ jsonl_data_path (self grown_world) = jsonl_data_path (self loaded_world).
Proof.
  split; [exact second_pass |].
  exact (X20_pass_keeps_matrix_and_settings sample_split sample_sentences
           sample_repr sample_random second_reader loaded_world grown_world
           second_pass).
Defined.

(** ** The fresh object *)

Lemma count_set_zero s d k n :
  (forall k' n', In (k', n') d -> n' = 0 /\ exists t, k' = JStr t) ->
  In (k, n) (count_set (JStr s) 0 d)
  <-> In (k, n) d \/ (k = JStr s /\ n = 0).
Proof.
  induction d as [|[k' n'] d IH]; intros Hd; cbn [count_set].
  - cbn. split; [intros [[= <- <-] | []]; auto | intros [[] | [-> ->]]; auto].
  - destruct (Hd k' n') as (-> & t & ->); [by left |]. cbn [key_eqb].
    destruct (String.eqb_spec s t) as [-> | Hne].
    + cbn. split; [auto | intros [Hin | [-> ->]]; auto].
    + cbn [In]. rewrite IH by (intros ? ? ?; apply Hd; by right). tauto.
Qed.

Lemma init_counts sources : forall d seen,
  (forall k n, In (k, n) d <-> n = 0 /\ exists s, k = JStr s /\ In s seen) ->
  forall k n,
    In (k, n) (foldl (fun d source => count_set (JStr source) 0 d) d sources)
    <-> n = 0 /\ exists s, k = JStr s /\ In s (seen ++ sources)%list.
Proof.
  induction sources as [|source sources IH]; intros d seen Hd k n;
    cbn [foldl].
  - by rewrite app_nil_r.
  - rewrite (IH _ (seen ++ [source])%list), <- app_assoc; [reflexivity |].
    intros k' n'. rewrite count_set_zero.
    + rewrite Hd. split.
      * intros [(-> & s & -> & Hs) | [-> ->]]; (split; [done |]);
          eexists; (split; [done |]); apply in_or_app; cbn; auto.
      * intros (-> & s & -> & [Hs | [<- | []]]%in_app_or); [left | right];
          eauto.
    + intros k'' n'' Hin. apply Hd in Hin as (-> & s & -> & _). eauto.
Qed.

(** X21. [Dataset(...)] raises for a rate limit of zero and for one that
    is too large for a float, and for no other argument. For a positive
    rate limit below 2^53, the delay of the object it builds, multiplied by
    the rate limit, is within 60/2^53 of 60 seconds. The object has empty
    lists, zero totals and no matrix, and its [articles_count] has one key
    for each custom source, and no other, each at zero. *)
Theorem X21_fresh_dataset :
  forall path sources rate min_tokens max_tokens fraction,
    match Dataset_init path sources rate min_tokens max_tokens fraction with
    | Ok d =>
        rate <> 0%Z
        /\ (Z.abs rate < 2 ^ 1024 - 2 ^ 970)%Z
        /\ ((0 < rate < 2 ^ 53)%Z ->
            (Qabs (delay_in_seconds d * inject_Z rate - 60) <= 60 / 2 ^ 53)%Q)
        /\ metadata d = [] /\ embedding_strings d = []
        /\ total_articles_count d = 0 /\ total_block_count d = 0
        /\ embeddings d = None
        /\ forall k n,
             In (k, n) (articles_count d)
             <-> n = 0 /\ exists s, k = JStr s /\ In s (default [] sources)
    | Missing _ => False
    | Uncaught => rate = 0%Z \/ (2 ^ 1024 - 2 ^ 970 <= Z.abs rate)%Z
    end.
Proof.
  intros path sources rate min_tokens max_tokens fraction.
  unfold Dataset_init.
  destruct (Z.leb_spec (2 ^ 1024 - 2 ^ 970) (Z.abs rate)) as [Hbig | Hfit];
    [by right |].
  destruct (Z.eqb_spec rate 0) as [-> | Hr]; [by left |].
  cbn [delay_in_seconds metadata embedding_strings total_articles_count
       total_block_count embeddings articles_count new_dataset].
  split; [done |]. split; [exact Hfit |]. split; [apply delay_error |].
  do 5 (split; [reflexivity |]).
  intros k n. destruct sources as [l|]; cbn [default].
  - apply (init_counts l [] []). cbn. intros k' n'. split; [done |].
    by intros (_ & s & _ & []).
  - cbn. split; [done |]. by intros (_ & s & _ & []).
Qed.
